(** * PGS Catalog score/trait loaders: pagination, aggregation, cache

    A shallow embedding of [src/js/loadScores.mjs] and of the aggregators of
    [src/js/loadTraits.js] and [src/js/loadPgs.js], with the statements of
    their specification.

    Conventions.
    - A JavaScript number is an IEEE-754 binary64 value ([float]).  Quantities
      that the code keeps integral and far below 2^53 (array lengths, offsets,
      counters, years, millisecond time values) are exact in binary64 and are
      written as [nat] or [Z].
    - A JSON document or a property value is a [value].
    - An [await]ed asynchronous call is a call whose result is an [outcome]:
      it returns, it throws, or it never settles. *)

From Stdlib Require Import ZArith Floats Lia Ascii String.
From stdpp Require Import base option list strings gmap sorting pretty.

Local Open Scope Z_scope.

(** * The JavaScript fragment the loaders use *)

Module JS.

#[warnings="-register-all"]
Inductive value : Type :=
| VUndefined
| VNull
| VBool (b : bool)
| VNum (x : float)
| VStr (s : string)
| VArr (items : list value)
| VObj (fields : list (string * value)).

Inductive exn : Type :=
| TypeError (msg : string)
| SyntaxError
| HttpError (status limit offset : nat)   (* new Error(`HTTP ${status} on ${url}`) *)
| FormatError                             (* new Error("Unexpected response format ...") *)
| StorageError.

(** Result of running a piece of (possibly asynchronous) code. *)
Inductive outcome (A : Type) : Type :=
| Returned (a : A)
| Threw (e : exn)
| Pending.
Arguments Returned {A} a.
Arguments Threw {A} e.
Arguments Pending {A}.

Definition bind {A B} (m : outcome A) (k : A → outcome B) : outcome B :=
  match m with
  | Returned a => k a
  | Threw e => Threw e
  | Pending => Pending
  end.

#[global] Instance outcome_ret : MRet outcome := @Returned.
#[global] Instance outcome_bind : MBind outcome := λ A B k m, bind m k.

(** [l.map(f)] for a callback that may throw. *)
Fixpoint mapM {A B} (f : A → outcome B) (l : list A) : outcome (list B) :=
  match l with
  | [] => Returned []
  | x :: l' => y ← f x; ys ← mapM f l'; Returned (y :: ys)
  end.

(** A [for ... of] loop that threads a state and may throw. *)
Fixpoint foldM {S A} (f : S → A → outcome S) (s : S) (l : list A) : outcome S :=
  match l with
  | [] => Returned s
  | x :: l' => s' ← f s x; foldM f s' l'
  end.

(** [v == null]: true of [null] and [undefined] only. *)
Definition nullish (v : value) : bool :=
  match v with
  | VUndefined | VNull => true
  | _ => false
  end.

(** [v] counts as false in a condition: [!v]. *)
Definition falsy (v : value) : bool :=
  match v with
  | VUndefined | VNull => true
  | VBool b => negb b
  | VNum x => PrimFloat.eqb x 0%float || negb (PrimFloat.eqb x x)
  | VStr s => String.eqb s ""
  | VArr _ | VObj _ => false
  end.

(** [a ?? b] *)
Definition coalesce (a b : value) : value := if nullish a then b else a.

Definition isArray (v : value) : bool :=
  match v with
  | VArr _ => true
  | _ => false
  end.

Fixpoint lookup_field (name : string) (fields : list (string * value)) : value :=
  match fields with
  | [] => VUndefined
  | (k, v) :: rest => if String.eqb k name then v else lookup_field name rest
  end.

(** [v.name] for a data property name that no built-in prototype defines
    ([results], [next], [variants_number], [trait_reported], [date_release],
    [trait_categories], [genome_build], [license], [weight_type],
    [ftp_scoring_file]): reading from [null] or [undefined] throws, reading
    from any other non-object gives [undefined]. *)
Definition get (v : value) (name : string) : outcome value :=
  match v with
  | VUndefined => Threw (TypeError "Cannot read properties of undefined")
  | VNull => Threw (TypeError "Cannot read properties of null")
  | VObj fields => Returned (lookup_field name fields)
  | _ => Returned VUndefined
  end.

(** [v?.name] *)
Definition get_opt (v : value) (name : string) : value :=
  match v with
  | VObj fields => lookup_field name fields
  | _ => VUndefined
  end.

(** ** Numbers *)

Definition isNaN (x : float) : bool := negb (PrimFloat.eqb x x).

(** [Number.isFinite] *)
Definition isFinite (x : float) : bool :=
  negb (isNaN x) && negb (PrimFloat.eqb (PrimFloat.abs x) PrimFloat.infinity).

Definition float_of_Z (z : Z) : float :=
  if z <? 0 then PrimFloat.opp (PrimFloat.of_uint63 (Uint63.of_Z (- z)))
  else PrimFloat.of_uint63 (Uint63.of_Z z).

Definition float_of_nat (n : nat) : float := float_of_Z (Z.of_nat n).

(** Largest integer not above a finite float, from its mantissa and
    exponent. *)
Definition floorZ (x : float) : Z :=
  match Prim2SF x with
  | S754_finite neg m e =>
      let num := if neg then Z.neg m else Z.pos m in
      if 0 <=? e then num * 2 ^ e else num / 2 ^ (- e)
  | _ => 0
  end.

(** [Math.floor]: zeros, infinities, NaN and the floats with a non-negative
    exponent (all of them integers) are returned as they are. *)
Definition Math_floor (x : float) : float :=
  match Prim2SF x with
  | S754_finite _ _ e => if 0 <=? e then x else float_of_Z (floorZ x)
  | _ => x
  end.

(** The array index a number denotes, if any: a non-negative integer below
    2^32 - 1. *)
Definition array_index (x : float) : option nat :=
  match Prim2SF x with
  | S754_zero _ => Some 0%nat
  | S754_finite false m e =>
      if 32 <? e then None
      else
        let num := if 0 <=? e then Z.pos m * 2 ^ e else Z.pos m / 2 ^ (- e) in
        let exact := if 0 <=? e then true else Z.pos m mod 2 ^ (- e) =? 0 in
        if exact && (num <? 2 ^ 32 - 1) then Some (Z.to_nat num) else None
  | _ => None
  end.

(** [arr[x]] on an array of numbers; [None] is [undefined]. *)
Definition nth_num (arr : list float) (x : float) : option float :=
  i ← array_index x; arr !! i.

(** ** [Array.prototype.sort]

    The sort is stable (ECMAScript 2019), so for a comparator that is a
    consistent ordering the result is determined; it is the result of
    insertion sort.  [before a b] is [comparator(a, b) < 0]. *)
Section Sort.
Context {A : Type} (before : A → A → bool).

Fixpoint insert (x : A) (l : list A) : list A :=
  match l with
  | [] => [x]
  | y :: l' => if before y x then y :: insert x l' else x :: y :: l'
  end.

Definition sort (l : list A) : list A := foldr insert [] l.
End Sort.

(** ** [Map]

    Entries are kept in insertion order; [set] on a present key replaces the
    count in place. *)
Section Map.
Context {K : Type} (same : K → K → bool).

Fixpoint map_get (m : list (K * nat)) (k : K) : option nat :=
  match m with
  | [] => None
  | (k', n) :: m' => if same k' k then Some n else map_get m' k
  end.

Fixpoint map_set (m : list (K * nat)) (k : K) (n : nat) : list (K * nat) :=
  match m with
  | [] => [(k, n)]
  | (k', n') :: m' =>
      if same k' k then (k', n) :: m' else (k', n') :: map_set m' k n
  end.

(** [m.set(k, (m.get(k) ?? 0) + 1)] *)
Definition map_incr (m : list (K * nat)) (k : K) : list (K * nat) :=
  map_set m k (default 0%nat (map_get m k) + 1)%nat.
End Map.

(** SameValueZero, the key equality of [Map].  Arrays and objects are keys
    by identity; every array or object in a parsed JSON document is a fresh
    one, so such a key equals no key inserted before it. *)
Definition sameValueZero (a b : value) : bool :=
  match a, b with
  | VUndefined, VUndefined => true
  | VNull, VNull => true
  | VBool x, VBool y => Bool.eqb x y
  | VNum x, VNum y => PrimFloat.eqb x y || (isNaN x && isNaN y)
  | VStr x, VStr y => String.eqb x y
  | _, _ => false
  end.

(** [Map.prototype.set] stores the key [-0] as [+0]. *)
Definition canon_key (k : value) : value :=
  match k with
  | VNum x => if PrimFloat.eqb x 0%float then VNum 0%float else k
  | _ => k
  end.

End JS.


(** * What the host supplies

    The conversions whose full definition belongs to the JavaScript engine
    and the browser rather than to the loaders. *)
Class Host : Type := {
  (** [Number(s)] for a string [s] *)
  StringToNumber : string → float;
  (** [String(v)] for an array or an object [v] *)
  ObjectToString : JS.value → string;
  (** [Date.parse]; [None] is NaN *)
  Date_parse : string → option Z;
  (** offset of local time, in milliseconds: [LocalTZA(t, isUTC)] *)
  LocalTZA : Z → bool → Z
}.

(** * Time values and calendar arithmetic (ECMA-262, Date objects)

    A time value is a number of milliseconds since 1970-01-01T00:00:00Z; an
    invalid date (time value NaN) is [None]. *)

Module Dates.

Definition msPerDay : Z := 86400000.

Definition Day (t : Z) : Z := t / msPerDay.

Definition TimeWithinDay (t : Z) : Z := t mod msPerDay.

Definition DaysInYear (y : Z) : Z :=
  if negb (y mod 4 =? 0) then 365
  else if negb (y mod 100 =? 0) then 366
  else if negb (y mod 400 =? 0) then 365
  else 366.

Definition DayFromYear (y : Z) : Z :=
  365 * (y - 1970) + (y - 1969) / 4 - (y - 1901) / 100 + (y - 1601) / 400.

(** The largest [y] with [DayFromYear y <= Day t]: an estimate from the mean
    length of a year, corrected by at most one. *)
Definition YearFromTime (t : Z) : Z :=
  let d := Day t in
  let y := 1970 + d * 400 / 146097 in
  if d <? DayFromYear y then y - 1
  else if DayFromYear (y + 1) <=? d then y + 1
  else y.

Definition InLeapYear (t : Z) : Z :=
  if DaysInYear (YearFromTime t) =? 366 then 1 else 0.

Definition DayWithinYear (t : Z) : Z := Day t - DayFromYear (YearFromTime t).

(** Day number, within its year, of the first day of month [m] (0 to 11). *)
Definition month_start (leap m : Z) : Z :=
  match m with
  | 0 => 0
  | 1 => 31
  | 2 => 59 + leap
  | 3 => 90 + leap
  | 4 => 120 + leap
  | 5 => 151 + leap
  | 6 => 181 + leap
  | 7 => 212 + leap
  | 8 => 243 + leap
  | 9 => 273 + leap
  | 10 => 304 + leap
  | _ => 334 + leap
  end.

Definition MonthFromTime (t : Z) : Z :=
  let d := DayWithinYear t in
  let leap := InLeapYear t in
  if d <? 31 then 0
  else if d <? 59 + leap then 1
  else if d <? 90 + leap then 2
  else if d <? 120 + leap then 3
  else if d <? 151 + leap then 4
  else if d <? 181 + leap then 5
  else if d <? 212 + leap then 6
  else if d <? 243 + leap then 7
  else if d <? 273 + leap then 8
  else if d <? 304 + leap then 9
  else if d <? 334 + leap then 10
  else 11.

Definition DateFromTime (t : Z) : Z :=
  DayWithinYear t - month_start (InLeapYear t) (MonthFromTime t) + 1.

(** [MakeDay(year, month, date)]: months outside 0..11 carry into the year, and
    a day of the month beyond the month's length runs on into the next
    month. *)
Definition MakeDay (year month date : Z) : Z :=
  let ym := year + month / 12 in
  let mn := month mod 12 in
  let leap := if DaysInYear ym =? 366 then 1 else 0 in
  DayFromYear ym + month_start leap mn + date - 1.

Definition MakeTime (hour min sec ms : Z) : Z :=
  hour * 3600000 + min * 60000 + sec * 1000 + ms.

Definition MakeDate (day time : Z) : Z := day * msPerDay + time.

Definition TimeClip (t : Z) : option Z :=
  if 8640000000000000 <? Z.abs t then None else Some t.

(** ** Formatting and parsing of the ISO form [YYYY-MM-DDTHH:mm:ss.sssZ] *)

Definition digit_char (d : Z) : ascii := ascii_of_nat (48 + Z.to_nat (d mod 10)).

(** [n] zero-padded to [width] decimal digits. *)
Fixpoint pad (width : nat) (n : Z) : string :=
  match width with
  | O => EmptyString
  | S w => pad w (n / 10) +:+ String (digit_char n) EmptyString
  end.

Definition HourFromTime (t : Z) : Z := (t / 3600000) mod 24.
Definition MinFromTime (t : Z) : Z := (t / 60000) mod 60.
Definition SecFromTime (t : Z) : Z := (t / 1000) mod 60.
Definition msFromTime (t : Z) : Z := t mod 1000.

(** [Date.prototype.toISOString] of a valid date. *)
Definition toISOString (t : Z) : string :=
  let y := YearFromTime t in
  let year :=
    if (0 <=? y) && (y <=? 9999) then pad 4 y
    else if y <? 0 then "-" +:+ pad 6 (- y)
    else "+" +:+ pad 6 y in
  year +:+ "-" +:+ pad 2 (MonthFromTime t + 1) +:+ "-" +:+ pad 2 (DateFromTime t)
  +:+ "T" +:+ pad 2 (HourFromTime t) +:+ ":" +:+ pad 2 (MinFromTime t)
  +:+ ":" +:+ pad 2 (SecFromTime t) +:+ "." +:+ pad 3 (msFromTime t) +:+ "Z".

Definition digit_value (c : ascii) : option Z :=
  let n := Z.of_nat (nat_of_ascii c) in
  if (48 <=? n) && (n <=? 57) then Some (n - 48) else None.

(** The number written by a string of decimal digits. *)
Fixpoint digits_from (acc : Z) (s : string) : option Z :=
  match s with
  | EmptyString => Some acc
  | String c s' => d ← digit_value c; digits_from (10 * acc + d) s'
  end.

Definition digits (s : string) : option Z :=
  match s with
  | EmptyString => None
  | _ => digits_from 0 s
  end.

Definition days_in_month (year mn : Z) : Z :=
  let leap := if DaysInYear year =? 366 then 1 else 0 in
  match mn with
  | 11 => 31
  | _ => month_start leap (mn + 1) - month_start leap mn
  end.

(** [Date.parse] on the 24-character form that [toISOString] writes for the
    years 0 to 9999; any other string is rejected here. *)
Definition parseISO (s : string) : option Z :=
  if negb (String.length s =? 24)%nat then None else
  if negb (String.eqb (substring 4 1 s) "-" && String.eqb (substring 7 1 s) "-"
           && String.eqb (substring 10 1 s) "T" && String.eqb (substring 13 1 s) ":"
           && String.eqb (substring 16 1 s) ":" && String.eqb (substring 19 1 s) "."
           && String.eqb (substring 23 1 s) "Z") then None else
  y ← digits (substring 0 4 s);
  mo ← digits (substring 5 2 s);
  d ← digits (substring 8 2 s);
  h ← digits (substring 11 2 s);
  mi ← digits (substring 14 2 s);
  sec ← digits (substring 17 2 s);
  ms ← digits (substring 20 3 s);
  if (1 <=? mo) && (mo <=? 12) && (1 <=? d) && (d <=? days_in_month y (mo - 1))
     && ((h <? 24) && (mi <? 60) && (sec <? 60) || (h =? 24) && (mi =? 0) && (sec =? 0) && (ms =? 0))
  then TimeClip (MakeDate (MakeDay y (mo - 1) d) (MakeTime h mi sec ms))
  else None.

(** ** Date objects in local time *)
Section Local.
Context `{Host}.

Definition LocalTime (t : Z) : Z := t + LocalTZA t true.

Definition UTC (t : Z) : Z := t - LocalTZA t false.

(** [d.getMonth()] of a valid date [d] with time value [t] *)
Definition getMonth (t : Z) : Z := MonthFromTime (LocalTime t).

(** [d.setMonth(month)] on a valid date [d] with time value [t]: the new time
    value of [d]. *)
Definition setMonth (t : Z) (month : Z) : option Z :=
  let lt := LocalTime t in
  let newDate := MakeDate (MakeDay (YearFromTime lt) month (DateFromTime lt)) (TimeWithinDay lt) in
  TimeClip (UTC newDate).

End Local.

End Dates.


(** * [src/js/loadScores.mjs] *)

Module LoadScores.
Import JS.

Definition SCORE_SUMMARY_KEY : string := "pgs:score-summary".

(** The [variants] block of a summary; each field is a number or [null]. *)
Record Variants : Type := {
  min : value;
  max : value;
  mean : value;
  median : value
}.

Record Summary : Type := {
  totalScores : nat;
  uniqueTraits : nat;
  variants : Variants;
  topTraits : list (value * nat);
  releaseYears : list (string * nat)
}.

(** What [loadScores] hands to its caller. *)
Record Results : Type := {
  scores : list value;
  summary : option Summary
}.

(** An entry of the cache.  [saveScoreSummary] below writes all three
    fields; the page script of the repository that caches score summaries
    writes [savedAt] and [summary] under the same key and no [scores], so
    every field is optional on reading. *)
Module Cache.
Record Entry : Type := {
  savedAt : option string;
  summary : option Summary;
  scores : option (list value)
}.
End Cache.

(** The [localforage] store.  [getItem] and [setItem] return promises, which
    the store may reject.  The module imports [localforage], so the guards
    [if (!localforage)] never fire and are left out. *)
Record Localforage : Type := {
  items : gmap string Cache.Entry;
  getItem_rejects : bool;
  setItem_rejects : bool
}.

Definition getItem (lf : Localforage) (key : string) : outcome (option Cache.Entry) :=
  if getItem_rejects lf then Threw StorageError else Returned (items lf !! key).

Definition setItem (lf : Localforage) (key : string) (entry : Cache.Entry)
  : outcome unit * Localforage :=
  if setItem_rejects lf then (Threw StorageError, lf)
  else (Returned (),
        {| items := <[key := entry]> (items lf);
           getItem_rejects := getItem_rejects lf;
           setItem_rejects := setItem_rejects lf |}).

(** ** Requests and replies *)

(** [`${PGS_BASE}/score/all?format=json&limit=${limit}&offset=${offset}`] *)
Record Request : Type := {
  limit : nat;
  offset : nat
}.

Record Response : Type := {
  ok : bool;
  status : nat;
  (** the body as [response.json()] resolves it; [None] when it is not JSON *)
  json : option value
}.

(** What one call of [fetch] settles to. *)
Inductive reply : Type :=
| Rejected
| Replied (response : Response).

(** ** quantile *)

Definition quantile (sorted : list float) (q : float) : value :=
  if (length sorted =? 0)%nat then VNull else
  let pos := (float_of_nat (length sorted - 1) * q)%float in
  let base := Math_floor pos in
  let rest := (pos - base)%float in
  match nth_num sorted (base + 1)%float with
  | None => from_option VNum VUndefined (nth_num sorted base)
  | Some next =>
      match nth_num sorted base with
      | Some low => VNum (low + rest * (next - low))%float
      | None => VNum PrimFloat.nan
      end
  end.

Section WithHost.
Context `{Host}.

(** ** saveScoreSummary, getStoredScoreSummary *)

Definition saveScoreSummary (lf : Localforage) (now : Z) (results : Results)
  : outcome unit * Localforage :=
  setItem lf SCORE_SUMMARY_KEY
    {| Cache.savedAt := Some (Dates.toISOString now);
       Cache.summary := summary results;
       Cache.scores := Some (scores results) |}.

Definition getStoredScoreSummary (lf : Localforage) : outcome (option Cache.Entry) :=
  getItem lf SCORE_SUMMARY_KEY.

(** ** isCacheWithinMonths

    [now] is the time value that [new Date()] reads. *)
Definition isCacheWithinMonths (now : Z) (savedAt : option string) (months : Z) : bool :=
  match savedAt with
  | None => false
  | Some s =>
      if String.eqb s "" then false else
      match Date_parse s with
      | None => false
      | Some savedDate =>
          match Dates.setMonth now (Dates.getMonth now - months) with
          | Some cutoff => cutoff <=? savedDate
          | None => false
          end
      end
  end.

(** ** fetchAllScores *)

(** [Array.isArray(data) ? data : (data.results ?? [])], then the format
    check. *)
Definition page_results (data : value) : outcome (list value) :=
  results ← (if isArray data then Returned data
             else r ← get data "results"; Returned (coalesce r (VArr [])));
  match results with
  | VArr records => Returned records
  | _ => Threw FormatError
  end.

(** The two [break] conditions, in order. *)
Definition stops (pageSize : nat) (data : value) (results : list value) : outcome bool :=
  if (length results =? 0)%nat then Returned true
  else if isArray data then Returned false
  else next ← get data "next";
       Returned (nullish next && (length results <? pageSize)%nat).

(** The [while (true)] loop from the state [(offset, all)].  [network] lists
    what the successive calls of [fetch] settle to; a call beyond the list
    never settles.  The result carries the requests made, in order. *)
Fixpoint fetch_loop (pageSize : nat) (network : list reply) (offset : nat)
    (all : list value) : list Request * outcome (list value) :=
  let url := {| limit := pageSize; offset := offset |} in
  match network with
  | [] => ([url], Pending)
  | Rejected :: _ => ([url], Threw (TypeError "Failed to fetch"))
  | Replied response :: network' =>
      if negb (ok response) then ([url], Threw (HttpError (status response) pageSize offset))
      else match json response with
      | None => ([url], Threw SyntaxError)
      | Some data =>
          match page_results data with
          | Threw e => ([url], Threw e)
          | Pending => ([url], Pending)
          | Returned results =>
              let all' := all ++ results in
              match stops pageSize data results with
              | Threw e => ([url], Threw e)
              | Pending => ([url], Pending)
              | Returned true => ([url], Returned all')
              | Returned false =>
                  let '(urls, out) :=
                    fetch_loop pageSize network' (offset + length results)%nat all' in
                  (url :: urls, out)
              end
          end
      end
  end.

Definition fetchAllScores (pageSize : nat) (network : list reply)
  : list Request * outcome (list value) :=
  fetch_loop pageSize network 0%nat [].

(** ** computeSummary *)

(** [Number(v)] *)
Definition ToNumber (v : value) : float :=
  match v with
  | VUndefined => PrimFloat.nan
  | VNull => 0%float
  | VBool b => if b then 1%float else 0%float
  | VNum x => x
  | VStr s => StringToNumber s
  | VArr _ | VObj _ => StringToNumber (ObjectToString v)
  end.

Definition is_digit (c : ascii) : bool :=
  let n := nat_of_ascii c in (48 <=? n)%nat && (n <=? 57)%nat.

(** The capture group of [/^(\d{4})/] on [s], if the pattern matches. *)
Definition leading_year (s : string) : option string :=
  match s with
  | String a (String b (String c (String d _))) =>
      if is_digit a && is_digit b && is_digit c && is_digit d
      then Some (String a (String b (String c (String d EmptyString))))
      else None
  | _ => None
  end.

(** [v.match(/^(\d{4})/)]: only a string has a [match] method. *)
Definition match_year (v : value) : outcome (option string) :=
  match v with
  | VStr s => Returned (leading_year s)
  | _ => Threw (TypeError "match is not a function")
  end.

(** [Number(y)] for a key of [byReleaseYear], a string of four digits. *)
Definition year_number (y : string) : Z := default 0 (Dates.digits y).

(** One iteration of [for (const score of scores)]. *)
Definition count_score (maps : list (value * nat) * list (string * nat)) (score : value)
  : outcome (list (value * nat) * list (string * nat)) :=
  let '(byTrait, byReleaseYear) := maps in
  reported ← get score "trait_reported";
  let trait := coalesce reported (VStr "NR") in
  let byTrait := map_incr sameValueZero byTrait (canon_key trait) in
  released ← get score "date_release";
  yearMatch ← match_year (coalesce released (VStr ""));
  match yearMatch with
  | Some y => Returned (byTrait, map_incr String.eqb byReleaseYear y)
  | None => Returned (byTrait, byReleaseYear)
  end.

(** [(a, b) => a - b] is negative *)
Definition ascending (a b : float) : bool := PrimFloat.ltb (a - b)%float 0%float.

(** [(a, b) => b[1] - a[1]] is negative *)
Definition by_count_desc {K} (a b : K * nat) : bool := (b.2 <? a.2)%nat.

(** [(a, b) => Number(a[0]) - Number(b[0])] is negative *)
Definition by_year_asc (a b : string * nat) : bool := year_number a.1 <? year_number b.1.

(** The [variants] object of the summary, from the sorted finite values. *)
Definition distribution (variants : list float) : Variants :=
  {| min := from_option VNum VNull (variants !! 0%nat);
     max := from_option VNum VNull (last variants);
     mean := if (length variants =? 0)%nat then VNull
             else VNum (fold_left PrimFloat.add variants 0%float
                        / float_of_nat (length variants))%float;
     median := quantile variants 0.5%float |}.

Definition computeSummary (scores : list value) : outcome Summary :=
  numbers ← mapM (λ item, v ← get item "variants_number"; Returned (ToNumber v)) scores;
  let variants := sort ascending (List.filter isFinite numbers) in
  '(byTrait, byReleaseYear) ← foldM count_score ([], []) scores;
  let topTraits := take 10 (sort by_count_desc byTrait) in
  let releaseYears := sort by_year_asc byReleaseYear in
  Returned
    {| totalScores := length scores;
       uniqueTraits := length byTrait;
       variants := distribution variants;
       topTraits := topTraits;
       releaseYears := releaseYears |}.

(** ** loadScores *)

(** The state of a run: what the caller gets, the store afterwards, and the
    requests sent. *)
Record Run : Type := {
  result : outcome Results;
  store : Localforage;
  requests : list Request
}.

(** The [catch] block, entered with the [results] object as the [try] block
    left it. *)
Definition on_error (cached : option Cache.Entry) (results : Results) : Results :=
  match cached ≫= Cache.summary with
  | Some s =>
      {| summary := Some s;
         scores := default [] (cached ≫= Cache.scores) |}
  | None => results
  end.

(** [cached?.summary && isCacheWithinMonths(cached.savedAt, 3)] *)
Definition usable (now : Z) (cached : option Cache.Entry) : bool :=
  match cached ≫= Cache.summary with
  | Some _ => isCacheWithinMonths now (cached ≫= Cache.savedAt) 3
  | None => false
  end.

(** [now] is the time at the freshness check, [now + elapsed] the time at
    which the save is made. *)
Definition loadScores (lf : Localforage) (network : list reply) (now elapsed : Z) : Run :=
  let results := {| scores := []; summary := None |} in
  match getStoredScoreSummary lf with
  | Threw e => {| result := Threw e; store := lf; requests := [] |}
  | Pending => {| result := Pending; store := lf; requests := [] |}
  | Returned cached =>
      if usable now cached then
        {| result := Returned {| summary := cached ≫= Cache.summary;
                                 scores := default [] (cached ≫= Cache.scores) |};
           store := lf; requests := [] |}
      else
        let '(urls, fetched) := fetchAllScores 200 network in
        match fetched with
        | Pending => {| result := Pending; store := lf; requests := urls |}
        | Threw e =>
            {| result := Returned (on_error cached results); store := lf; requests := urls |}
        | Returned scores =>
            match computeSummary scores with
            | Pending => {| result := Pending; store := lf; requests := urls |}
            | Threw e =>
                {| result := Returned (on_error cached results); store := lf;
                   requests := urls |}
            | Returned summary =>
                let results := {| scores := scores; summary := Some summary |} in
                match saveScoreSummary lf (now + elapsed) results with
                | (Returned _, lf') =>
                    {| result := Returned results; store := lf'; requests := urls |}
                | (Threw e, lf') =>
                    {| result := Returned (on_error cached results); store := lf';
                       requests := urls |}
                | (Pending, lf') =>
                    {| result := Pending; store := lf'; requests := urls |}
                end
            end
        end
  end.

(** ** formatNumber, loadStats

    The page has the elements [scoreSourceStatus] and [scoreOutput], each
    there ([Some] of its text) or not, and whatever [renderStats] and
    [renderPlot] draw on, the [view].  The two renderers, the number
    formatting of the engine ([toLocaleString] with the given number of
    fraction digits) and the message of an error are taken as given. *)
Section Page.
Context {V : Type}.
Context (renderStats renderPlot : Summary → V → outcome unit * V).
Context (toLocaleString : float → nat → string).
Context (message : exn → string).

Record Page : Type := {
  scoreSourceStatus : option string;
  scoreOutput : option string;
  view : V
}.

Definition formatNumber (value : value) (decimals : nat) : string :=
  if nullish value || match value with VNum x => isNaN x | _ => false end then "NR"
  else toLocaleString (ToNumber value) decimals.

(** [if (element) element.textContent = text] *)
Definition set_text (element : option string) (text : string) : option string :=
  match element with
  | Some _ => Some text
  | None => None
  end.

(** [renderStats(summary); renderPlot(summary);] *)
Definition render (summary : Summary) (page : Page) : outcome unit * Page :=
  match renderStats summary (view page) with
  | (Returned _, v) =>
      let '(out, v') := renderPlot summary v in
      (out, {| scoreSourceStatus := scoreSourceStatus page;
               scoreOutput := scoreOutput page; view := v' |})
  | (out, v) =>
      (out, {| scoreSourceStatus := scoreSourceStatus page;
               scoreOutput := scoreOutput page; view := v |})
  end.

(** [`Loaded ${formatNumber(summary.totalScores)} cached scores summary
     (${cached.savedAt}).`] *)
Definition cached_text (summary : Summary) (savedAt : option string) : string :=
  "Loaded " +:+ formatNumber (VNum (float_of_nat (totalScores summary))) 0
  +:+ " cached scores summary (" +:+ default "undefined" savedAt +:+ ").".

(** What a run of [loadStats] leaves: what the caller gets, the page, the
    store and the requests sent. *)
Record Shown : Type := {
  returned : outcome Results;
  page_after : Page;
  store_after : Localforage;
  requests_sent : list Request
}.

(** The [catch] block of [loadStats]. *)
Definition on_stats_error (cached : option Cache.Entry) (error : exn) (page : Page)
  : outcome Results * Page :=
  let results := {| scores := default [] (cached ≫= Cache.scores);
                    summary := cached ≫= Cache.summary |} in
  match cached ≫= Cache.summary with
  | Some summary =>
      match render summary page with
      | (Returned _, page) =>
          (Returned results,
           {| scoreSourceStatus :=
                set_text (scoreSourceStatus page) "Source: local cache (LocalForage fallback)";
              scoreOutput :=
                set_text (scoreOutput page) (cached_text summary (cached ≫= Cache.savedAt));
              view := view page |})
      | (Threw e, page) => (Threw e, page)
      | (Pending, page) => (Pending, page)
      end
  | None =>
      (Returned results,
       {| scoreSourceStatus := set_text (scoreSourceStatus page) "Source: unavailable";
          scoreOutput :=
            set_text (scoreOutput page) ("Error loading stats: " +:+ message error);
          view := view page |})
  end.

(** [now] and [elapsed] are those of the call of [loadScores]; [later] is the
    time at which [loadStats] tests the freshness of the entry it read at its
    start. *)
Definition loadStats (lf : Localforage) (network : list reply) (now elapsed later : Z)
    (page : Page) : Shown :=
  match getStoredScoreSummary lf with
  | Threw e =>
      {| returned := Threw e; page_after := page; store_after := lf; requests_sent := [] |}
  | Pending =>
      {| returned := Pending; page_after := page; store_after := lf; requests_sent := [] |}
  | Returned cached =>
      let page :=
        {| scoreSourceStatus :=
             set_text (scoreSourceStatus page) "Source: loading PGS score metadata...";
           scoreOutput := scoreOutput page; view := view page |} in
      let run := loadScores lf network now elapsed in
      let finish (end_ : outcome Results * Page) :=
        {| returned := end_.1; page_after := end_.2; store_after := store run;
           requests_sent := requests run |} in
      match result run with
      | Pending => finish (Pending, page)
      | Threw e => finish (on_stats_error cached e page)
      | Returned results =>
          match summary results with
          | None =>
              finish
                (Returned {| scores := []; summary := None |},
                 {| scoreSourceStatus :=
                      set_text (scoreSourceStatus page) "Source: unavailable";
                    scoreOutput :=
                      set_text (scoreOutput page)
                        "Error loading stats: missing summary data.";
                    view := view page |})
          | Some summary =>
              match (if usable later cached then cached ≫= Cache.summary else None) with
              | Some fresh =>
                  match render fresh page with
                  | (Returned _, page) =>
                      finish
                        (Returned results,
                         {| scoreSourceStatus :=
                              set_text (scoreSourceStatus page)
                                "Source: local cache (LocalForage, < 3 months)";
                            scoreOutput :=
                              set_text (scoreOutput page)
                                (cached_text fresh (cached ≫= Cache.savedAt));
                            view := view page |})
                  | (Threw e, page) => finish (on_stats_error cached e page)
                  | (Pending, page) => finish (Pending, page)
                  end
              | None =>
                  match render summary page with
                  | (Returned _, page) =>
                      finish
                        (Returned results,
                         {| scoreSourceStatus :=
                              set_text (scoreSourceStatus page)
                                "Source: PGS Catalog REST API (live)";
                            scoreOutput :=
                              set_text (scoreOutput page)
                                ("Loaded "
                                 +:+ formatNumber
                                       (VNum (float_of_nat (totalScores summary))) 0
                                 +:+ " scores from PGS Catalog.");
                            view := view page |})
                  | (Threw e, page) => finish (on_stats_error cached e page)
                  | (Pending, page) => finish (Pending, page)
                  end
              end
          end
      end
  end.

End Page.

End WithHost.
End LoadScores.

(** * [src/js/loadTraits.js]: the aggregator *)

Module LoadTraits.
Import JS.

Record Summary : Type := {
  traits : list value;
  totaltraits : nat;
  totalCategories : nat;
  categories : list (value * nat)
}.

(** [Array.isArray(trait?.trait_categories) && trait.trait_categories.length
     ? trait.trait_categories : ["NR"]] *)
Definition categories_of (trait : value) : list value :=
  match get_opt trait "trait_categories" with
  | VArr (c :: cs) => c :: cs
  | _ => [VStr "NR"]
  end.

(** The inner loop [for (const category of categories)]. *)
Definition count_categories (byCategory : list (value * nat)) (trait : value)
  : list (value * nat) :=
  fold_left (λ m category, map_incr sameValueZero m (canon_key category))
            (categories_of trait) byCategory.

(** [byCategory] when the outer loop is done. *)
Definition count_traits (traits : list value) : list (value * nat) :=
  fold_left count_categories traits [].

(** [(a, b) => b[1] - a[1]] is negative *)
Definition by_count_desc (a b : value * nat) : bool := (b.2 <? a.2)%nat.

Definition computeSummary (traits : list value) : Summary :=
  let byCategory := count_traits traits in
  {| traits := traits;
     totaltraits := length traits;
     totalCategories := length byCategory;
     categories := sort by_count_desc byCategory |}.

(** ** fetchAllTraits *)

(** [page < maxPages]; [maxPages] is a whole number of pages, or [Infinity]
    ([None]), its default. *)
Definition below (page : nat) (maxPages : option nat) : bool :=
  match maxPages with
  | Some cap => (page <? cap)%nat
  | None => true
  end.

(** The loop [while (page < maxPages)] from the state [(page, offset, all)].
    The request is for
    [`${BASE}/trait/all?format=json&limit=${pageSize}&offset=${offset}`]; the
    page is read and the two [break] conditions are tested as in
    [loadScores.mjs]. *)
Fixpoint fetch_loop (pageSize : nat) (maxPages : option nat)
    (network : list LoadScores.reply) (page offset : nat) (all : list value)
  : list LoadScores.Request * outcome (list value) :=
  if negb (below page maxPages) then ([], Returned all) else
  let url := {| LoadScores.limit := pageSize; LoadScores.offset := offset |} in
  match network with
  | [] => ([url], Pending)
  | LoadScores.Rejected :: _ => ([url], Threw (TypeError "Failed to fetch"))
  | LoadScores.Replied response :: network' =>
      if negb (LoadScores.ok response)
      then ([url], Threw (HttpError (LoadScores.status response) pageSize offset))
      else match LoadScores.json response with
      | None => ([url], Threw SyntaxError)
      | Some data =>
          match LoadScores.page_results data with
          | Threw e => ([url], Threw e)
          | Pending => ([url], Pending)
          | Returned results =>
              let all' := all ++ results in
              match LoadScores.stops pageSize data results with
              | Threw e => ([url], Threw e)
              | Pending => ([url], Pending)
              | Returned true => ([url], Returned all')
              | Returned false =>
                  let '(urls, out) :=
                    fetch_loop pageSize maxPages network' (S page)
                      (offset + length results)%nat all' in
                  (url :: urls, out)
              end
          end
      end
  end.

Definition fetchAllTraits (pageSize : nat) (maxPages : option nat)
    (network : list LoadScores.reply)
  : list LoadScores.Request * outcome (list value) :=
  fetch_loop pageSize maxPages network 0%nat 0%nat [].

End LoadTraits.

(** * [src/js/loadPgs.js]: the aggregator *)

Module LoadPgs.
Import JS.

Record VariantsNumber : Type := {
  n_with_value : nat;
  min : value;
  max : value;
  mean : value;
  median : value;
  p95 : value
}.

Record Counts : Type := {
  genome_build : list (value * nat);
  license : list (value * nat);
  weight_type : list (value * nat);
  release_year : list (value * nat);
  top_25_traits : list (value * nat)
}.

Record Summary : Type := {
  total_scores : nat;
  variants_number : VariantsNumber;
  missing_ftp_scoring_file : nat;
  counts : Counts
}.

(** Here the position is worked out before the array is found empty. *)
Definition quantile (sorted : list float) (q : float) : value :=
  let pos := (float_of_Z (Z.of_nat (length sorted) - 1) * q)%float in
  let base := Math_floor pos in
  let rest := (pos - base)%float in
  if (length sorted =? 0)%nat then VNull else
  match nth_num sorted (base + 1)%float with
  | None => from_option VNum VUndefined (nth_num sorted base)
  | Some next =>
      match nth_num sorted base with
      | Some low => VNum (low + rest * (next - low))%float
      | None => VNum PrimFloat.nan
      end
  end.

Definition inc (map : list (value * nat)) (key : value) : list (value * nat) :=
  let k := coalesce key (VStr "NR") in
  map_incr sameValueZero map (canon_key k).

(** [Number(m[1])] for the four digits the pattern captured; [None] is
    [null]. *)
Definition parseYear (dateStr : value) : option Z :=
  match dateStr with
  | VStr s =>
      if String.eqb s "" then None
      else LoadScores.year_number <$> LoadScores.leading_year s
  | _ => None
  end.

(** [String(y)] for a whole number from 0 to 9999. *)
Definition year_string (y : Z) : string :=
  if y <? 10 then Dates.pad 1 y
  else if y <? 100 then Dates.pad 2 y
  else if y <? 1000 then Dates.pad 3 y
  else Dates.pad 4 y.

(** The five maps and the counter of the loop. *)
Record Tally : Type := {
  byGenomeBuild : list (value * nat);
  byLicense : list (value * nat);
  byWeightType : list (value * nat);
  byTrait : list (value * nat);
  byReleaseYear : list (value * nat);
  missingFtp : nat
}.

(** One iteration of [for (const s of scores)]. *)
Definition count_score (tally : Tally) (s : value) : outcome Tally :=
  build ← get s "genome_build";
  lic ← get s "license";
  weight ← get s "weight_type";
  trait ← get s "trait_reported";
  released ← get s "date_release";
  ftp ← get s "ftp_scoring_file";
  Returned
    {| byGenomeBuild := inc (byGenomeBuild tally) build;
       byLicense := inc (byLicense tally) lic;
       byWeightType := inc (byWeightType tally) weight;
       byTrait := inc (byTrait tally) trait;
       byReleaseYear :=
         match parseYear released with
         | Some y => if y =? 0 then byReleaseYear tally
                     else inc (byReleaseYear tally) (VStr (year_string y))
         | None => byReleaseYear tally
         end;
       missingFtp := if falsy ftp then S (missingFtp tally) else missingFtp tally |}.

(** [const sortDesc = (a, b) => b[1] - a[1]] is negative *)
Definition sortDesc (a b : value * nat) : bool := (b.2 <? a.2)%nat.

(** [fetchAllScores({ pageSize = 50, maxPages = 4 })]: the loop of
    [fetchAllTraits], on [score/all]. *)
Definition fetchAllScores (pageSize : nat) (maxPages : option nat)
    (network : list LoadScores.reply)
  : list LoadScores.Request * outcome (list value) :=
  LoadTraits.fetch_loop pageSize maxPages network 0%nat 0%nat [].

Section WithHost.
Context `{Host}.

#[warnings="-inexact-float"]
Definition computeScoreSummary (scores : list value) : outcome Summary :=
  let total := length scores in
  numbers ← mapM (λ s, v ← get s "variants_number"; Returned (LoadScores.ToNumber v)) scores;
  let variants := sort LoadScores.ascending (List.filter isFinite numbers) in
  let min := from_option VNum VNull (variants !! 0%nat) in
  let max := from_option VNum VNull (last variants) in
  let mean := if (length variants =? 0)%nat then VNull
              else VNum (fold_left PrimFloat.add variants 0%float
                         / float_of_nat (length variants))%float in
  let median := quantile variants 0.5%float in
  let p95 := quantile variants 0.95%float in
  tally ← foldM count_score
             {| byGenomeBuild := []; byLicense := []; byWeightType := []; byTrait := [];
                byReleaseYear := []; missingFtp := 0 |} scores;
  let topTraits := take 25 (sort sortDesc (byTrait tally)) in
  Returned
    {| total_scores := total;
       variants_number :=
         {| n_with_value := length variants; min := min; max := max; mean := mean;
            median := median; p95 := p95 |};
       missing_ftp_scoring_file := missingFtp tally;
       counts :=
         {| genome_build := sort sortDesc (byGenomeBuild tally);
            license := sort sortDesc (byLicense tally);
            weight_type := sort sortDesc (byWeightType tally);
            release_year := sort sortDesc (byReleaseYear tally);
            top_25_traits := topTraits |} |}.

End WithHost.
End LoadPgs.

(** * A host for the examples

    In the UTC time zone; it reads the two kinds of string the catalog and
    the cache hold: an unsigned decimal integer as a number, and a date in
    the form that [toISOString] writes. *)
Definition utc_host : Host := {|
  StringToNumber s := from_option JS.float_of_Z PrimFloat.nan (Dates.digits s);
  ObjectToString _ := "[object Object]";
  Date_parse := Dates.parseISO;
  LocalTZA _ _ := 0
|}.

(** * Vocabulary of the statements *)

Section Tables.
Context {K : Type} (same : K → K → bool).

(** No two entries of a table are for the same key. *)
Definition distinct_keys (m : list (K * nat)) : Prop :=
  ForallOrdPairs (λ a b, same a b = false) (m.*1).

(** The table [m] counts the keys [keys] and nothing else: no key has two
    entries, every key counted has its entry, every entry is for a key that
    was counted, and the counts add up to the number of keys counted. *)
Record counts_all (keys : list K) (m : list (K * nat)) : Prop := {
  counts_distinct : distinct_keys m;
  counts_every : ∀ k, k ∈ keys → ∃ e, e ∈ m ∧ (e.1 = k ∨ same e.1 k = true);
  counts_only : ∀ e, e ∈ m → e.1 ∈ keys ∧ (1 ≤ e.2)%nat;
  counts_total : sum_list (m.*2) = length keys
}.

End Tables.

(** Descending by count. *)
Definition count_desc {K} (a b : K * nat) : Prop := (b.2 ≤ a.2)%nat.

(** Ascending by year. *)
Definition year_asc (a b : string * nat) : Prop :=
  LoadScores.year_number a.1 ≤ LoadScores.year_number b.1.

(** ** Pages *)

(** The reply is a successful response whose body is an envelope object with
    the array [records] as [results] and [next] as its next pointer
    ([VUndefined] when the envelope has none). *)
Inductive enveloped : LoadScores.reply → list JS.value → JS.value → Prop :=
| enveloped_intro status fields records next :
    JS.lookup_field "results" fields = JS.VArr records →
    JS.lookup_field "next" fields = next →
    enveloped
      (LoadScores.Replied
         {| LoadScores.ok := true; LoadScores.status := status;
            LoadScores.json := Some (JS.VObj fields) |})
      records next.

(** A successful response whose body is the bare array [records]. *)
Definition bare (records : list JS.value) : LoadScores.reply :=
  LoadScores.Replied
    {| LoadScores.ok := true; LoadScores.status := 200;
       LoadScores.json := Some (JS.VArr records) |}.

(** The offsets of successive requests when the pages hold [sizes] records. *)
Fixpoint offsets_from (offset : nat) (sizes : list nat) : list nat :=
  match sizes with
  | [] => []
  | n :: sizes' => offset :: offsets_from (offset + n) sizes'
  end.

Definition requests_at (pageSize : nat) (offsets : list nat) : list LoadScores.Request :=
  (λ o, {| LoadScores.limit := pageSize; LoadScores.offset := o |}) <$> offsets.

(** A successful response whose body is the envelope
    [{ results: records, next: next }]. *)
Definition envelope (records : list JS.value) (next : JS.value) : LoadScores.reply :=
  LoadScores.Replied
    {| LoadScores.ok := true; LoadScores.status := 200;
       LoadScores.json :=
         Some (JS.VObj [("results", JS.VArr records); ("next", next)]) |}.

(** The fetcher sends exactly [n] requests. *)
Definition stops_after (pageSize : nat) (network : list LoadScores.reply) (n : nat)
  : Prop :=
  length (LoadScores.fetchAllScores pageSize network).1 = n.

(** The reply is a successful response with the JSON body [data], from which
    the fetcher reads the records [records]. *)
Definition page (r : LoadScores.reply) (data : JS.value) (records : list JS.value) : Prop :=
  ∃ status,
    r = LoadScores.Replied
          {| LoadScores.ok := true; LoadScores.status := status;
             LoadScores.json := Some data |}
    ∧ LoadScores.page_results data = JS.Returned records.

(** A page after which the fetcher goes on, and one at which it stops. *)
Definition continues (pageSize : nat) (r : LoadScores.reply) (records : list JS.value)
  : Prop :=
  ∃ data, page r data records
          ∧ LoadScores.stops pageSize data records = JS.Returned false.

Definition final (pageSize : nat) (r : LoadScores.reply) (records : list JS.value)
  : Prop :=
  ∃ data, page r data records
          ∧ LoadScores.stops pageSize data records = JS.Returned true.

(** ** Records *)

(** The key under which a score is counted: [score.trait_reported ?? "NR"],
    as [Map] stores it. *)
Definition trait_key (score : JS.value) : JS.value :=
  JS.canon_key (JS.coalesce (JS.get_opt score "trait_reported") (JS.VStr "NR")).

(** The release year a score is counted under, if any. *)
Definition release_year (score : JS.value) : option string :=
  match JS.coalesce (JS.get_opt score "date_release") (JS.VStr "") with
  | JS.VStr s => LoadScores.leading_year s
  | _ => None
  end.

(** A score as the data model has it: a value with properties, that is not
    [null] or [undefined], whose [date_release] is a string when it is
    there. *)
Definition well_formed_score (score : JS.value) : bool :=
  negb (JS.nullish score) &&
  match JS.coalesce (JS.get_opt score "date_release") (JS.VStr "") with
  | JS.VStr _ => true
  | _ => false
  end.

(** The finite [variants_number] values of the scores, ascending. *)
Definition finite_variants `{Host} (scores : list JS.value) : list float :=
  JS.sort LoadScores.ascending
    (List.filter JS.isFinite
       ((λ item, LoadScores.ToNumber (JS.get_opt item "variants_number")) <$> scores)).

(** [byTrait] and [byReleaseYear] as the loop over well-formed scores leaves
    them. *)
Definition trait_table (scores : list JS.value) : list (JS.value * nat) :=
  fold_left (JS.map_incr JS.sameValueZero) (trait_key <$> scores) [].

Definition year_table (scores : list JS.value) : list (string * nat) :=
  fold_left (JS.map_incr String.eqb) (omap release_year scores) [].

(** How many of [keys] are the key [k]. *)
Definition counted_under {K} (same : K → K → bool) (k : K) (keys : list K) : nat :=
  length (List.filter (same k) keys).

(** The key under which [inc] counts the property [field] of a score. *)
Definition field_key (field : string) (score : JS.value) : JS.value :=
  JS.canon_key (JS.coalesce (JS.get_opt score field) (JS.VStr "NR")).

(** The table of a property over all scores. *)
Definition field_table (field : string) (scores : list JS.value) : list (JS.value * nat) :=
  fold_left (JS.map_incr JS.sameValueZero) (field_key field <$> scores) [].

(** The key under which the [loadPgs.js] aggregator counts the release year
    of a score, if it counts one. *)
Definition pgs_release_year (score : JS.value) : option JS.value :=
  y ← LoadPgs.parseYear (JS.get_opt score "date_release");
  if y =? 0 then None else Some (JS.VStr (LoadPgs.year_string y)).

Definition pgs_year_table (scores : list JS.value) : list (JS.value * nat) :=
  fold_left (JS.map_incr JS.sameValueZero) (omap pgs_release_year scores) [].

(** The categories a list of traits is counted under, in order. *)
Definition category_keys (traits : list JS.value) : list JS.value :=
  JS.canon_key <$> (traits ≫= LoadTraits.categories_of).

(** ** Sample records *)

(** Eleven scores, each with a reported trait of its own. *)
Definition eleven_traits : list JS.value :=
  (λ t, JS.VObj [("trait_reported", JS.VStr t)])
  <$> ["a"; "b"; "c"; "d"; "e"; "f"; "g"; "h"; "i"; "j"; "k"].

(** One score released in 2020 and two released in 2021. *)
Definition three_releases : list JS.value :=
  [JS.VObj [("date_release", JS.VStr "2020-05-01")];
   JS.VObj [("date_release", JS.VStr "2021-03-01")];
   JS.VObj [("date_release", JS.VStr "2021-07-15")]].

(** Four scores with 4, 1, 3 and 2 variants. *)
Definition four_variants : list JS.value :=
  (λ n, JS.VObj [("variants_number", JS.VNum n)]) <$> [4; 1; 3; 2]%float.

(** ** Calendar months

    The instant [n] calendar months before [now], in the words of the
    specification: take the local year, month, day of the month and time of
    day of [now], step the month back [n] times through the calendar
    (carrying into the year), and keep the day of the month and the time of
    day; when the month reached is too short for that day, the date runs on
    into the following month. *)
Definition calendar_months_before `{Host} (now n : Z) : option Z :=
  let t := Dates.LocalTime now in
  let months := 12 * Dates.YearFromTime t + Dates.MonthFromTime t - n in
  let year := months / 12 in
  let month := months mod 12 in
  let leap := if Dates.DaysInYear year =? 366 then 1 else 0 in
  let first := Dates.DayFromYear year + Dates.month_start leap month in
  Dates.TimeClip
    (Dates.UTC ((first + (Dates.DateFromTime t - 1)) * Dates.msPerDay
                + Dates.TimeWithinDay t)).

(** ** Sample cache entries *)

Definition sample_summary : LoadScores.Summary :=
  {| LoadScores.totalScores := 2;
     LoadScores.uniqueTraits := 1;
     LoadScores.variants := LoadScores.distribution [10; 30]%float;
     LoadScores.topTraits := [(JS.VStr "Height", 2%nat)];
     LoadScores.releaseYears := [("2023", 2%nat)] |}.

(** An entry as the page script writes it: a summary and no records. *)
Definition summary_only_entry : LoadScores.Cache.Entry :=
  {| LoadScores.Cache.savedAt := Some "2024-03-21T10:00:00.000Z";
     LoadScores.Cache.summary := Some sample_summary;
     LoadScores.Cache.scores := None |}.

(** An entry as [saveScoreSummary] writes it, saved in 2021. *)
Definition old_entry : LoadScores.Cache.Entry :=
  {| LoadScores.Cache.savedAt := Some "2021-01-01T00:00:00.000Z";
     LoadScores.Cache.summary := Some sample_summary;
     LoadScores.Cache.scores := Some [JS.VObj [("variants_number", JS.VNum 10%float)];
                                      JS.VObj [("variants_number", JS.VNum 30%float)]] |}.

Definition store_with (entry : LoadScores.Cache.Entry) : LoadScores.Localforage :=
  {| LoadScores.items := {[ LoadScores.SCORE_SUMMARY_KEY := entry ]};
     LoadScores.getItem_rejects := false;
     LoadScores.setItem_rejects := false |}.

(** A first page of one record with a next pointer, then a response with
    status 500. *)
Definition failing_network : list LoadScores.reply :=
  [envelope [JS.VObj [("variants_number", JS.VNum 7%float)]] (JS.VStr "next");
   LoadScores.Replied {| LoadScores.ok := false; LoadScores.status := 500;
                         LoadScores.json := None |}].

(** 2024-03-31T10:00:00.000Z *)
Definition end_of_march : Z := 1711879200000.

(** A page for the runs of [loadStats]: what is drawn is the list of the
    renderers that ran, numbers are printed as whole numbers without
    grouping, and both text elements exist. *)
Definition draw (what : string) (summary : LoadScores.Summary) (drawn : list string)
  : JS.outcome unit * list string :=
  (JS.Returned (), drawn ++ [what]).

Definition plain_number (x : float) (decimals : nat) : string := pretty (JS.floorZ x).

Definition error_text (e : JS.exn) : string :=
  match e with
  | JS.TypeError msg => msg
  | JS.SyntaxError => "Unexpected token"
  | JS.HttpError status _ _ => "HTTP " +:+ pretty status
  | JS.FormatError => "Unexpected response format from PGS API."
  | JS.StorageError => "storage"
  end.

Definition blank_page : LoadScores.Page (V := list string) :=
  {| LoadScores.scoreSourceStatus := Some "Source:";
     LoadScores.scoreOutput := Some "Output:";
     LoadScores.view := [] |}.

(** * Facts about the JavaScript fragment *)

Section MapFacts.
Context {K : Type} (same : K → K → bool).
Implicit Types (m : list (K * nat)) (k : K).

Lemma map_get_None m k :
  JS.map_get same m k = None ↔ Forall (λ k', same k' k = false) (m.*1).
Proof.
  induction m as [|[k' n] m IH]; csimpl.
  - split; [constructor | done].
  - destruct (same k' k) eqn:E.
    + split; [done | inversion 1; congruence].
    + rewrite IH. split; [by constructor | by inversion 1].
Qed.

Lemma map_set_keys m k n :
  (JS.map_set same m k n).*1 =
  if JS.map_get same m k is Some _ then m.*1 else m.*1 ++ [k].
Proof.
  induction m as [|[k' n'] m IH]; csimpl; [done|].
  destruct (same k' k); csimpl; [done|].
  rewrite IH. by destruct (JS.map_get same m k).
Qed.

Lemma map_set_counts m k n :
  (sum_list ((JS.map_set same m k n).*2) + default 0 (JS.map_get same m k)
   = sum_list (m.*2) + n)%nat.
Proof.
  induction m as [|[k' n'] m IH]; csimpl; [lia|].
  destruct (same k' k); csimpl; lia.
Qed.

Lemma map_incr_counts m k :
  sum_list ((JS.map_incr same m k).*2) = S (sum_list (m.*2)).
Proof.
  unfold JS.map_incr.
  pose proof (map_set_counts m k (default 0 (JS.map_get same m k) + 1)%nat). lia.
Qed.

Lemma map_set_positive m k n :
  (1 ≤ n)%nat → Forall (λ c, 1 ≤ c)%nat (m.*2) →
  Forall (λ c, 1 ≤ c)%nat ((JS.map_set same m k n).*2).
Proof.
  intros Hn. induction m as [|[k' n'] m IH]; csimpl.
  - by repeat constructor.
  - inversion_clear 1. destruct (same k' k); csimpl; constructor; auto.
Qed.

Lemma map_get_Some m k n :
  JS.map_get same m k = Some n → ∃ k', (k', n) ∈ m ∧ same k' k = true.
Proof.
  induction m as [|[k' n'] m IH]; csimpl; [done|].
  destruct (same k' k) eqn:E.
  - intros [= ->]. exists k'. split; [left | done].
  - intros [k'' [? ?]]%IH. exists k''. split; [by right | done].
Qed.

Lemma distinct_keys_snoc m k n :
  distinct_keys same m → JS.map_get same m k = None →
  distinct_keys same (m ++ [(k, n)]).
Proof.
  unfold distinct_keys. rewrite map_get_None, fmap_app. csimpl.
  induction 1 as [|a l Ha Hl IH]; csimpl.
  - intros _. repeat constructor.
  - inversion_clear 1. constructor; [|auto].
    apply Forall_app. split; [done | by repeat constructor].
Qed.

Lemma map_incr_distinct m k :
  distinct_keys same m → distinct_keys same (JS.map_incr same m k).
Proof.
  intros Hm. unfold distinct_keys, JS.map_incr. rewrite map_set_keys.
  destruct (JS.map_get same m k) eqn:E; [done|].
  pose proof (distinct_keys_snoc m k 0 Hm E) as H.
  unfold distinct_keys in H. by rewrite fmap_app in H.
Qed.

Lemma map_set_keeps m k n e :
  e ∈ m → ∃ e', e' ∈ JS.map_set same m k n ∧ e'.1 = e.1.
Proof.
  induction m as [|[k' n'] m IH]; csimpl; [by inversion 1|].
  intros [->|Hin]%elem_of_cons.
  - destruct (same k' k); eexists; (split; [left|done]).
  - destruct (same k' k).
    + exists e. split; [by right | done].
    + destruct (IH Hin) as (e' & ? & ?). exists e'. split; [by right | done].
Qed.

Lemma map_set_has m k n :
  ∃ e, e ∈ JS.map_set same m k n ∧ (e.1 = k ∨ same e.1 k = true).
Proof.
  induction m as [|[k' n'] m IH]; csimpl.
  - exists (k, n). split; [left | by left].
  - destruct (same k' k) eqn:E.
    + exists (k', n). split; [left | by right].
    + destruct IH as (e & ? & ?). exists e. split; [by right | done].
Qed.

Lemma counts_all_incr keys m k :
  counts_all same keys m → counts_all same (keys ++ [k]) (JS.map_incr same m k).
Proof.
  intros [Hd He Ho Ht]. split.
  - by apply map_incr_distinct.
  - intros k0 [Hk0 | ->%list_elem_of_singleton]%elem_of_app.
    + destruct (He k0 Hk0) as (e & Hin & Hsame).
      destruct (map_set_keeps m k (default 0 (JS.map_get same m k) + 1)%nat e Hin)
        as (e' & ? & Heq).
      exists e'. rewrite Heq. done.
    + apply map_set_has.
  - intros e Hin. split.
    + assert (e.1 ∈ (JS.map_incr same m k).*1) as Hk by (by apply list_elem_of_fmap_2).
      unfold JS.map_incr in Hk. rewrite map_set_keys in Hk.
      assert (e.1 ∈ m.*1 ++ [k]) as [Hm | ?]%elem_of_app.
      { destruct (JS.map_get same m k); [apply elem_of_app; by left | done]. }
      * apply list_elem_of_fmap in Hm as (e0 & -> & Hin0).
        apply elem_of_app. left. by apply Ho.
      * apply elem_of_app. by right.
    + assert (Forall (λ c, 1 ≤ c)%nat ((JS.map_incr same m k).*2)) as Hall.
      { apply map_set_positive; [lia|].
        apply Forall_fmap, Forall_forall. intros e0 Hin0. by apply Ho. }
      rewrite Forall_fmap, Forall_forall in Hall. by apply Hall.
  - rewrite map_incr_counts, Ht, length_app. simpl. lia.
Qed.

Lemma counts_all_fold keys0 m keys :
  counts_all same keys0 m →
  counts_all same (keys0 ++ keys) (fold_left (JS.map_incr same) keys m).
Proof.
  revert keys0 m. induction keys as [|k keys IH]; intros keys0 m Hm; simpl.
  - by rewrite app_nil_r.
  - replace (keys0 ++ k :: keys) with ((keys0 ++ [k]) ++ keys) by by rewrite <- app_assoc.
    by apply IH, counts_all_incr.
Qed.

(** Counting under a key that [same] identifies with itself only. *)
Section Count.
Context (k : K).
Context (same_l : ∀ x, same x k = true ↔ x = k).
Context (same_r : ∀ x, same k x = true ↔ x = k).

Lemma same_comm x : same x k = same k x.
Proof.
  destruct (same x k) eqn:E1, (same k x) eqn:E2; try done.
  - apply same_l in E1. apply same_r in E1. congruence.
  - apply same_r in E2. apply same_l in E2. congruence.
Qed.

Lemma map_set_count m x n :
  default 0%nat (JS.map_get same (JS.map_set same m x n) k) =
  if same k x then n else default 0%nat (JS.map_get same m k).
Proof.
  induction m as [|[k1 n1] m IH]; csimpl.
  - rewrite same_comm. by destruct (same k x).
  - destruct (same k1 x) eqn:E1; csimpl.
    + destruct (same k1 k) eqn:E2.
      * apply same_l in E2 as ->. by rewrite E1.
      * destruct (same k x) eqn:E3; [|done].
        apply same_r in E3 as ->. congruence.
    + destruct (same k1 k) eqn:E2; [|done].
      apply same_l in E2 as ->. by rewrite E1.
Qed.

Lemma map_get_same m x :
  same k x = true → JS.map_get same m x = JS.map_get same m k.
Proof. by intros ->%same_r. Qed.

Lemma map_incr_count m x :
  default 0%nat (JS.map_get same (JS.map_incr same m x) k) =
  (default 0 (JS.map_get same m k) + if same k x then 1 else 0)%nat.
Proof.
  unfold JS.map_incr. rewrite map_set_count.
  destruct (same k x) eqn:E; [|lia]. by rewrite (map_get_same _ _ E).
Qed.

Lemma fold_incr_count keys m :
  default 0%nat (JS.map_get same (fold_left (JS.map_incr same) keys m) k) =
  (default 0 (JS.map_get same m k) + counted_under same k keys)%nat.
Proof.
  revert m. induction keys as [|x keys IH]; intros m; simpl.
  - unfold counted_under. simpl. lia.
  - rewrite IH, map_incr_count. unfold counted_under. simpl.
    destruct (same k x); simpl; lia.
Qed.

End Count.

Lemma counts_all_nil : counts_all same [] [].
Proof. split; [constructor | by inversion 1 | by inversion 1 | done]. Qed.

End MapFacts.

Section SortFacts.
Context {A : Type} (before : A → A → bool).

Lemma insert_perm x l : JS.insert before x l ≡ₚ x :: l.
Proof.
  induction l as [|y l IH]; simpl; [done|].
  destruct (before y x); [|done].
  by rewrite IH, Permutation_swap.
Qed.

Lemma sort_perm l : JS.sort before l ≡ₚ l.
Proof.
  unfold JS.sort. induction l as [|x l IH]; simpl; [done|].
  by rewrite insert_perm, IH.
Qed.

Lemma sort_length l : length (JS.sort before l) = length l.
Proof. by rewrite sort_perm. Qed.

Context (R : A → A → Prop) `{!Transitive R}.
Context (before_R : ∀ x y, before y x = true → R y x).
Context (not_before_R : ∀ x y, before y x = false → R x y).

Lemma insert_sorted x l :
  StronglySorted R l → StronglySorted R (JS.insert before x l).
Proof.
  induction 1 as [|y l Hl IH Hy]; simpl.
  - by repeat constructor.
  - destruct (before y x) eqn:E.
    + constructor; [done|]. rewrite insert_perm. constructor; auto.
    + constructor; [by constructor|].
      constructor; [auto|].
      eapply Forall_impl; [exact Hy|]. intros z Hz. by trans y; [auto|].
Qed.

Lemma sort_sorted l : StronglySorted R (JS.sort before l).
Proof.
  unfold JS.sort. induction l; simpl; [constructor | by apply insert_sorted].
Qed.


End SortFacts.

#[local] Instance count_desc_trans {K} : Transitive (@count_desc K).
Proof. unfold count_desc. intros a b c. lia. Qed.

#[local] Instance year_asc_trans : Transitive year_asc.
Proof. unfold year_asc. intros a b c. lia. Qed.

(** * The paginated fetcher *)

Section Fetcher.
Import JS LoadScores.

Lemma enveloped_step pageSize r records next network offset all :
  enveloped r records next →
  fetch_loop pageSize (r :: network) offset all =
  if (length records =? 0)%nat || nullish next && (length records <? pageSize)%nat
  then ([{| limit := pageSize; offset := offset |}], Returned (all ++ records))
  else
    let '(urls, out) :=
      fetch_loop pageSize network (offset + length records)%nat (all ++ records) in
    ({| limit := pageSize; offset := offset |} :: urls, out).
Proof.
  destruct 1 as [status fields records next Hres Hnext]; simpl.
  unfold page_results, stops; simpl. rewrite Hres, Hnext; simpl.
  destruct (length records =? 0)%nat; simpl; [done|].
  destruct (nullish next && (length records <? pageSize)%nat); done.
Qed.

Lemma bare_step pageSize records network offset all :
  fetch_loop pageSize (bare records :: network) offset all =
  if (length records =? 0)%nat
  then ([{| limit := pageSize; offset := offset |}], Returned (all ++ records))
  else
    let '(urls, out) :=
      fetch_loop pageSize network (offset + length records)%nat (all ++ records) in
    ({| limit := pageSize; offset := offset |} :: urls, out).
Proof.
  simpl. unfold stops; simpl. by destruct (length records =? 0)%nat.
Qed.

Lemma fetch_loop_concatenates pageSize replies pages last last_records last_next rest :
  Forall2 (λ r p, enveloped r p.1 p.2) replies pages →
  Forall (λ p, nullish p.2 = false ∧ p.1 ≠ []) pages →
  enveloped last last_records last_next →
  nullish last_next = true →
  (length last_records < pageSize)%nat →
  ∀ offset all,
    fetch_loop pageSize (replies ++ last :: rest) offset all =
    (requests_at pageSize
       (offsets_from offset (length <$> pages.*1 ++ [last_records])),
     Returned (all ++ concat (pages.*1) ++ last_records)).
Proof.
  intros Hpages Hmore Hlast Hnull Hshort.
  induction Hpages as [|r [records next] replies pages Hr Hrest IH];
    intros offset all.
  - change ([] ++ last :: rest) with (last :: rest).
    rewrite (enveloped_step _ _ _ _ _ _ _ Hlast), Hnull.
    apply Nat.ltb_lt in Hshort. rewrite Hshort, orb_true_r. done.
  - apply Forall_cons in Hmore as [[Hnext Hne] Hmore]. simpl in Hnext, Hne, Hr.
    change ((r :: replies) ++ last :: rest) with (r :: (replies ++ last :: rest)).
    rewrite (enveloped_step _ _ _ _ _ _ _ Hr), Hnext.
    destruct records as [|record records]; [done|].
    cbn [length Nat.eqb orb andb]. rewrite (IH Hmore).
    csimpl. by rewrite <- !app_assoc.
Qed.

End Fetcher.

(** C2, as it is stated, fails on a page sequence whose first page is an
    envelope with no records and a next pointer: the fetcher stops at the
    empty page and never asks for the second, final page. *)
Lemma empty_page_ends_early :
  let first := envelope [] (JS.VStr "/rest/score/all?limit=200&offset=0") in
  let final := envelope [JS.VObj []] JS.VNull in
  enveloped first [] (JS.VStr "/rest/score/all?limit=200&offset=0")
  ∧ JS.nullish (JS.VStr "/rest/score/all?limit=200&offset=0") = false
  ∧ enveloped final [JS.VObj []] JS.VNull
  ∧ JS.nullish JS.VNull = true
  ∧ (length [JS.VObj []] < 200)%nat
  ∧ LoadScores.fetchAllScores 200 [first; final] = (requests_at 200 [0%nat], JS.Returned [])
  ∧ LoadScores.fetchAllScores 200 [first; final]
    ≠ (requests_at 200 [0%nat; 0%nat], JS.Returned ([] ++ [JS.VObj []])).
Proof.
  repeat split; try done; try by constructor.
  simpl; lia.
Qed.

(** C2 (amended): when every page is an envelope with a results array, every
    page before the final one holds at least one record and has a non-null
    next pointer, and the final page holds fewer than [pageSize] records and
    has a null next pointer, [fetchAllScores] stops at the final page, whatever
    the server would have sent afterwards; it returns the concatenation of the
    pages' results in request order, and it has asked for each page at the
    offset that is the number of records received before it. *)
Theorem fetchAllScores_concatenates pageSize replies pages last last_records last_next rest :
  Forall2 (λ r p, enveloped r p.1 p.2) replies pages →
  Forall (λ p, JS.nullish p.2 = false ∧ p.1 ≠ []) pages →
  enveloped last last_records last_next →
  JS.nullish last_next = true →
  (length last_records < pageSize)%nat →
  LoadScores.fetchAllScores pageSize (replies ++ last :: rest) =
  (requests_at pageSize (offsets_from 0 (length <$> pages.*1 ++ [last_records])),
   JS.Returned (concat (pages.*1) ++ last_records)).
Proof.
  intros. unfold LoadScores.fetchAllScores.
  by erewrite fetch_loop_concatenates.
Qed.

Lemma fetchAllScores_concatenates_witness :
  LoadScores.fetchAllScores 200
    [envelope [JS.VObj []; JS.VNum 1%float] (JS.VStr "next");
     envelope [JS.VNum 2%float] JS.VNull;
     bare []]
  = (requests_at 200 [0%nat; 2%nat],
     JS.Returned [JS.VObj []; JS.VNum 1%float; JS.VNum 2%float]).
Proof.
  apply (fetchAllScores_concatenates 200
           [envelope [JS.VObj []; JS.VNum 1%float] (JS.VStr "next")]
           [([JS.VObj []; JS.VNum 1%float], JS.VStr "next")]
           (envelope [JS.VNum 2%float] JS.VNull) [JS.VNum 2%float] JS.VNull [bare []]).
  - repeat constructor.
  - repeat constructor. discriminate.
  - by constructor.
  - reflexivity.
  - simpl. lia.
Defined.

(** C3, as it is stated, fails on a first page that is a bare array of one
    record with [pageSize] 200: the fetcher does not stop after it but sends a
    second request, at offset 1. *)
Lemma bare_short_page_is_not_final :
  (0 < length [JS.VObj []] < 200)%nat
  ∧ ¬ stops_after 200 [bare [JS.VObj []]; bare []] 1
  ∧ (LoadScores.fetchAllScores 200 [bare [JS.VObj []]; bare []]).1
    = requests_at 200 [0%nat; 1%nat].
Proof.
  split; [simpl; lia|]. split; [|reflexivity].
  unfold stops_after. simpl. lia.
Qed.

(** C3 (amended): a page whose body is a bare array gives its records as an
    envelope does, but its length never makes it the final page.  After a bare
    array of one or more records, shorter than [pageSize] or not, the fetcher
    appends the records, advances the offset by their number and requests a
    further page; only an empty bare array ends the pagination. *)
Theorem bare_page_continues pageSize records network offset all :
  records ≠ [] →
  LoadScores.page_results (JS.VArr records) = JS.Returned records
  ∧ LoadScores.fetch_loop pageSize (bare records :: network) offset all =
    (let '(urls, out) :=
       LoadScores.fetch_loop pageSize network (offset + length records)%nat
         (all ++ records) in
     ({| LoadScores.limit := pageSize; LoadScores.offset := offset |} :: urls, out))
  ∧ LoadScores.fetch_loop pageSize (bare [] :: network) offset all =
    ([{| LoadScores.limit := pageSize; LoadScores.offset := offset |}], JS.Returned all).
Proof.
  intros Hne. split; [done|]. rewrite !bare_step. split.
  - by destruct records.
  - simpl. by rewrite app_nil_r.
Qed.

Lemma bare_page_continues_witness :
  LoadScores.fetch_loop 200 [bare [JS.VObj []]; bare []] 0 [] =
  (requests_at 200 [0%nat; 1%nat], JS.Returned [JS.VObj []]).
Proof.
  destruct (bare_page_continues 200 [JS.VObj []] [bare []] 0 []) as (_ & E & _).
  - discriminate.
  - rewrite E. reflexivity.
Defined.

(** * The aggregators *)

Section Aggregator.
Context `{Host}.
Import JS LoadScores.

Lemma get_Returned v name : nullish v = false → get v name = Returned (get_opt v name).
Proof. by destruct v. Qed.

Lemma get_inv v name x : get v name = Returned x → nullish v = false ∧ x = get_opt v name.
Proof. destruct v; simpl; intros [= <-] || done; done. Qed.

Lemma well_formed_not_nullish score : well_formed_score score = true → nullish score = false.
Proof. unfold well_formed_score. by destruct (nullish score). Qed.

Lemma count_score_Returned maps score :
  well_formed_score score = true →
  count_score maps score =
  Returned (map_incr sameValueZero maps.1 (trait_key score),
            match release_year score with
            | Some y => map_incr String.eqb maps.2 y
            | None => maps.2
            end).
Proof.
  intros Hwf. pose proof (well_formed_not_nullish _ Hwf) as Hnn.
  unfold well_formed_score in Hwf. rewrite Hnn in Hwf. simpl in Hwf.
  destruct maps as [byTrait byReleaseYear]. unfold count_score, release_year.
  rewrite !get_Returned by done. simpl.
  destruct (coalesce (get_opt score "date_release") (VStr "")); try done.
  simpl. by destruct (leading_year s).
Qed.

Lemma count_score_inv maps score maps' :
  count_score maps score = Returned maps' → well_formed_score score = true.
Proof.
  destruct maps as [byTrait byReleaseYear]. unfold count_score, well_formed_score.
  destruct (nullish score) eqn:Hnn; [by destruct score|].
  rewrite !get_Returned by done. simpl.
  by destruct (coalesce (get_opt score "date_release") (VStr "")).
Qed.

Lemma foldM_count_score scores :
  Forall (λ score, well_formed_score score = true) scores →
  ∀ byTrait byReleaseYear,
    foldM count_score (byTrait, byReleaseYear) scores =
    Returned (fold_left (map_incr sameValueZero) (trait_key <$> scores) byTrait,
              fold_left (map_incr String.eqb) (omap release_year scores) byReleaseYear).
Proof.
  induction 1 as [|score scores Hwf _ IH]; intros byTrait byReleaseYear; [done|].
  cbn [foldM]. rewrite (count_score_Returned _ _ Hwf). csimpl.
  rewrite IH. by destruct (release_year score).
Qed.

Lemma foldM_count_score_inv scores maps maps' :
  foldM count_score maps scores = Returned maps' →
  Forall (λ score, well_formed_score score = true) scores.
Proof.
  revert maps. induction scores as [|score scores IH]; intros maps; [by constructor|].
  cbn [foldM]. destruct (count_score maps score) as [maps1| |] eqn:E; [|done..].
  csimpl. intros Hrest. constructor; [by eapply count_score_inv | by eapply IH].
Qed.

Lemma mapM_numbers scores :
  Forall (λ score, well_formed_score score = true) scores →
  mapM (λ item, v ← get item "variants_number"; Returned (ToNumber v)) scores =
  Returned ((λ item, ToNumber (get_opt item "variants_number")) <$> scores).
Proof.
  induction 1 as [|score scores Hwf _ IH]; [done|].
  cbn [mapM]. rewrite get_Returned by by apply well_formed_not_nullish.
  csimpl. by rewrite IH.
Qed.

(** [computeSummary] returns exactly on well-formed scores, and then this
    summary. *)
Lemma computeSummary_Returned scores s :
  computeSummary scores = Returned s ↔
  Forall (λ score, well_formed_score score = true) scores
  ∧ s = {| totalScores := length scores;
           uniqueTraits := length (trait_table scores);
           variants := distribution (finite_variants scores);
           topTraits := take 10 (sort by_count_desc (trait_table scores));
           releaseYears := sort by_year_asc (year_table scores) |}.
Proof.
  unfold computeSummary. split.
  - destruct (mapM _ scores) as [numbers| |] eqn:Hnum; [|done..]. csimpl.
    destruct (foldM count_score ([], []) scores) as [[byTrait byYear]| |] eqn:Hfold;
      [|done..]. csimpl.
    pose proof (foldM_count_score_inv _ _ _ Hfold) as Hwf.
    rewrite mapM_numbers in Hnum by done. injection Hnum as <-.
    rewrite foldM_count_score in Hfold by done. injection Hfold as <- <-.
    by intros [= <-].
  - intros [Hwf ->]. rewrite mapM_numbers by done. csimpl.
    rewrite foldM_count_score by done. done.
Qed.

(** The loop of [computeScoreSummary] over scores none of which is [null] or
    [undefined]. *)
Lemma pgs_count_score tally score :
  nullish score = false →
  LoadPgs.count_score tally score =
  Returned
    {| LoadPgs.byGenomeBuild :=
         map_incr sameValueZero (LoadPgs.byGenomeBuild tally) (field_key "genome_build" score);
       LoadPgs.byLicense :=
         map_incr sameValueZero (LoadPgs.byLicense tally) (field_key "license" score);
       LoadPgs.byWeightType :=
         map_incr sameValueZero (LoadPgs.byWeightType tally) (field_key "weight_type" score);
       LoadPgs.byTrait :=
         map_incr sameValueZero (LoadPgs.byTrait tally) (field_key "trait_reported" score);
       LoadPgs.byReleaseYear :=
         match pgs_release_year score with
         | Some y => map_incr sameValueZero (LoadPgs.byReleaseYear tally) y
         | None => LoadPgs.byReleaseYear tally
         end;
       LoadPgs.missingFtp :=
         if falsy (get_opt score "ftp_scoring_file") then S (LoadPgs.missingFtp tally)
         else LoadPgs.missingFtp tally |}.
Proof.
  intros Hnn. unfold LoadPgs.count_score. rewrite !get_Returned by done. csimpl.
  do 2 f_equal. unfold pgs_release_year.
  destruct (LoadPgs.parseYear (get_opt score "date_release")) as [y|]; csimpl; [|done].
  by destruct (y =? 0).
Qed.

Lemma pgs_foldM scores :
  Forall (λ score, nullish score = false) scores →
  ∀ tally,
    ∃ missing,
      foldM LoadPgs.count_score tally scores =
      Returned
        {| LoadPgs.byGenomeBuild :=
             fold_left (map_incr sameValueZero) (field_key "genome_build" <$> scores)
               (LoadPgs.byGenomeBuild tally);
           LoadPgs.byLicense :=
             fold_left (map_incr sameValueZero) (field_key "license" <$> scores)
               (LoadPgs.byLicense tally);
           LoadPgs.byWeightType :=
             fold_left (map_incr sameValueZero) (field_key "weight_type" <$> scores)
               (LoadPgs.byWeightType tally);
           LoadPgs.byTrait :=
             fold_left (map_incr sameValueZero) (field_key "trait_reported" <$> scores)
               (LoadPgs.byTrait tally);
           LoadPgs.byReleaseYear :=
             fold_left (map_incr sameValueZero) (omap pgs_release_year scores)
               (LoadPgs.byReleaseYear tally);
           LoadPgs.missingFtp := missing |}.
Proof.
  induction 1 as [|score scores Hnn _ IH]; intros tally.
  - exists (LoadPgs.missingFtp tally). by destruct tally.
  - cbn [foldM]. rewrite (pgs_count_score _ _ Hnn). csimpl.
    destruct (IH {|
      LoadPgs.byGenomeBuild :=
        map_incr sameValueZero (LoadPgs.byGenomeBuild tally) (field_key "genome_build" score);
      LoadPgs.byLicense :=
        map_incr sameValueZero (LoadPgs.byLicense tally) (field_key "license" score);
      LoadPgs.byWeightType :=
        map_incr sameValueZero (LoadPgs.byWeightType tally) (field_key "weight_type" score);
      LoadPgs.byTrait :=
        map_incr sameValueZero (LoadPgs.byTrait tally) (field_key "trait_reported" score);
      LoadPgs.byReleaseYear :=
        match pgs_release_year score with
        | Some y => map_incr sameValueZero (LoadPgs.byReleaseYear tally) y
        | None => LoadPgs.byReleaseYear tally
        end;
      LoadPgs.missingFtp :=
        if falsy (get_opt score "ftp_scoring_file") then S (LoadPgs.missingFtp tally)
        else LoadPgs.missingFtp tally |}) as [missing ->].
    exists missing. csimpl. by destruct (pgs_release_year score).
Qed.

Lemma pgs_foldM_inv scores tally tally' :
  foldM LoadPgs.count_score tally scores = Returned tally' →
  Forall (λ score, nullish score = false) scores.
Proof.
  revert tally. induction scores as [|score scores IH]; intros tally; [by constructor|].
  cbn [foldM]. destruct (LoadPgs.count_score tally score) as [tally1| |] eqn:E; [|done..].
  csimpl. intros Hrest. constructor; [|by eapply IH].
  unfold LoadPgs.count_score in E. by destruct score.
Qed.

(** What [computeScoreSummary] returns of its tables. *)
Lemma computeScoreSummary_counts scores s :
  LoadPgs.computeScoreSummary scores = Returned s →
  LoadPgs.counts s =
  {| LoadPgs.genome_build := sort LoadPgs.sortDesc (field_table "genome_build" scores);
     LoadPgs.license := sort LoadPgs.sortDesc (field_table "license" scores);
     LoadPgs.weight_type := sort LoadPgs.sortDesc (field_table "weight_type" scores);
     LoadPgs.release_year := sort LoadPgs.sortDesc (pgs_year_table scores);
     LoadPgs.top_25_traits :=
       take 25 (sort LoadPgs.sortDesc (field_table "trait_reported" scores)) |}.
Proof.
  unfold LoadPgs.computeScoreSummary.
  destruct (mapM _ scores) as [numbers| |]; [|done..]. csimpl.
  destruct (foldM LoadPgs.count_score _ scores) as [tally| |] eqn:Hfold; [|done..].
  csimpl. intros [= <-]. simpl.
  pose proof (pgs_foldM_inv _ _ _ Hfold) as Hnn.
  destruct (pgs_foldM scores Hnn
              {| LoadPgs.byGenomeBuild := []; LoadPgs.byLicense := [];
                 LoadPgs.byWeightType := []; LoadPgs.byTrait := [];
                 LoadPgs.byReleaseYear := []; LoadPgs.missingFtp := 0 |}) as [missing E].
  rewrite E in Hfold. by injection Hfold as <-.
Qed.

Lemma mapM_settles {A B} (f : A → outcome B) l :
  (∀ x, f x ≠ Pending) → mapM f l ≠ Pending.
Proof.
  intros Hf. induction l as [|x l IH]; [done|]. cbn [mapM].
  specialize (Hf x). destruct (f x); [|done..]. csimpl.
  by destruct (mapM f l).
Qed.

Lemma foldM_settles {S A} (f : S → A → outcome S) l :
  (∀ s x, f s x ≠ Pending) → ∀ s, foldM f s l ≠ Pending.
Proof.
  intros Hf. induction l as [|x l IH]; intros s; [done|]. cbn [foldM].
  specialize (Hf s x). destruct (f s x); [|done..]. csimpl. apply IH.
Qed.

Lemma count_score_settles maps score : count_score maps score ≠ Pending.
Proof.
  destruct maps as [byTrait byReleaseYear]. unfold count_score.
  destruct score; try done; csimpl;
    match goal with
    | |- context [match_year ?v] => destruct v; try done; csimpl
    end;
    by match goal with
       | |- context [leading_year ?s] => destruct (leading_year s)
       end.
Qed.

Lemma computeSummary_settles scores : computeSummary scores ≠ Pending.
Proof.
  unfold computeSummary.
  pose proof (mapM_settles
                (λ item, v ← get item "variants_number"; Returned (ToNumber v)) scores) as Hmap.
  destruct (mapM _ scores); [|done|].
  - csimpl.
    pose proof (foldM_settles count_score scores count_score_settles ([], [])) as Hfold.
    by destruct (foldM count_score ([], []) scores) as [[??]| |].
  - destruct Hmap; [|done]. intros x. by destruct x.
Qed.

End Aggregator.

(** * The orchestrator *)

Section Orchestrator.
Context `{Host}.
Import JS LoadScores.

(** What [loadScores] returns once the [catch] block has run with the
    [results] object still as it was created. *)
Lemma on_error_initial cached :
  on_error cached {| scores := []; summary := None |} =
  match cached ≫= Cache.summary with
  | Some s => {| summary := Some s; scores := default [] (cached ≫= Cache.scores) |}
  | None => {| summary := None; scores := [] |}
  end.
Proof. unfold on_error. by destruct (cached ≫= Cache.summary). Qed.

Lemma usable_summary now cached :
  usable now cached = true → ∃ s, cached ≫= Cache.summary = Some s.
Proof. unfold usable. destruct (cached ≫= Cache.summary); [eauto | done]. Qed.

(** C1: when the paginated fetch or the aggregation throws, [loadScores]
    throws nothing.  If the cache holds an entry with a summary, of whatever
    age, it returns that summary with the entry's records (no records when the
    entry has none); otherwise it returns no summary and no records. *)
Theorem loadScores_falls_back lf network now elapsed cached e :
  getStoredScoreSummary lf = Returned cached →
  (fetchAllScores 200 network).2 = Threw e
  ∨ (∃ fetched, (fetchAllScores 200 network).2 = Returned fetched
                ∧ computeSummary fetched = Threw e) →
  result (loadScores lf network now elapsed) =
  Returned
    match cached ≫= Cache.summary with
    | Some s => {| summary := Some s; scores := default [] (cached ≫= Cache.scores) |}
    | None => {| summary := None; scores := [] |}
    end.
Proof.
  intros Hget Hfail. unfold loadScores. rewrite Hget.
  destruct (usable now cached) eqn:Hfresh.
  - destruct (usable_summary _ _ Hfresh) as [s Hs]. by rewrite Hs.
  - rewrite <- on_error_initial.
    destruct (fetchAllScores 200 network) as [urls fetched]. simpl in Hfail.
    destruct Hfail as [-> | (scores & -> & ->)]; done.
Qed.

(** C9: when the paginated fetch fails on some page, the store after
    [loadScores] is the store before it, so the entry under the key is
    untouched and no record of the pages already received is kept.  The store
    changes only in a run whose fetch and aggregation both returned. *)
Theorem failed_fetch_leaves_cache lf network now elapsed :
  (∀ e, (fetchAllScores 200 network).2 = Threw e →
        store (loadScores lf network now elapsed) = lf)
  ∧ (store (loadScores lf network now elapsed) ≠ lf →
     ∃ fetched s, (fetchAllScores 200 network).2 = Returned fetched
                  ∧ computeSummary fetched = Returned s).
Proof.
  unfold loadScores.
  destruct (getStoredScoreSummary lf) as [cached| |]; [|by split..].
  destruct (usable now cached); [by split|].
  destruct (fetchAllScores 200 network) as [urls [fetched| |]]; simpl; [|by split..].
  split; [done|].
  destruct (computeSummary fetched) as [s| |] eqn:Hsum; [|done..].
  intros _. by exists fetched, s.
Qed.

(** C10: a result of [loadScores] pairs a list of records with a summary or
    with none, in one of three ways: no records and no summary; the summary of
    the cached entry with the entry's records, or with no records when the
    entry has none; the fetched records with their summary.  On a fresh cache
    hit whose entry has a summary and no [scores], the result is that summary
    with an empty list, and neither the store nor the network is touched.
    [loadScores] throws only when reading the cache does, and it returns
    whenever that read returns and the fetch settles. *)
Theorem loadScores_result_shape lf network now elapsed :
  (∀ r, result (loadScores lf network now elapsed) = Returned r →
        (scores r = [] ∧ summary r = None)
        ∨ (∃ entry s, items lf !! SCORE_SUMMARY_KEY = Some entry
                      ∧ Cache.summary entry = Some s
                      ∧ summary r = Some s
                      ∧ scores r = default [] (Cache.scores entry))
        ∨ (∃ fetched s, (fetchAllScores 200 network).2 = Returned fetched
                        ∧ computeSummary fetched = Returned s
                        ∧ r = {| scores := fetched; summary := Some s |}))
  ∧ (∀ entry s, getItem_rejects lf = false →
                items lf !! SCORE_SUMMARY_KEY = Some entry →
                Cache.summary entry = Some s →
                Cache.scores entry = None →
                isCacheWithinMonths now (Cache.savedAt entry) 3 = true →
                loadScores lf network now elapsed =
                {| result := Returned {| summary := Some s; scores := [] |};
                   store := lf; requests := [] |})
  ∧ (∀ e, result (loadScores lf network now elapsed) = Threw e →
          getItem_rejects lf = true)
  ∧ (getItem_rejects lf = false →
     (fetchAllScores 200 network).2 ≠ Pending →
     ∃ r, result (loadScores lf network now elapsed) = Returned r).
Proof.
  assert (∀ r,
            r = on_error (items lf !! SCORE_SUMMARY_KEY) {| scores := []; summary := None |} →
            (scores r = [] ∧ summary r = None)
            ∨ (∃ entry s, items lf !! SCORE_SUMMARY_KEY = Some entry
                          ∧ Cache.summary entry = Some s
                          ∧ summary r = Some s
                          ∧ scores r = default [] (Cache.scores entry))) as Hcatch.
  { intros r ->. rewrite on_error_initial.
    destruct (items lf !! SCORE_SUMMARY_KEY) as [entry|]; simpl; [|by left].
    destruct (Cache.summary entry) as [s|] eqn:Hs; [|by left].
    right. by exists entry, s. }
  split; [|split; [|split]].
  - intros r. unfold loadScores, getStoredScoreSummary, getItem.
    destruct (getItem_rejects lf); [done|].
    set (cached := items lf !! SCORE_SUMMARY_KEY) in *.
    destruct (usable now cached) eqn:Hfresh.
    { intros [= <-]. destruct (usable_summary _ _ Hfresh) as [s Hs].
      destruct (Hcatch _ eq_refl) as [[_ Hnone]|?].
      - rewrite on_error_initial, Hs in Hnone. done.
      - right. left. by rewrite on_error_initial, Hs in *. }
    destruct (fetchAllScores 200 network) as [urls [fetched| |]]; simpl; [| |done].
    + destruct (computeSummary fetched) as [s| |] eqn:Hsum; [| |done].
      * unfold saveScoreSummary, setItem. destruct (setItem_rejects lf).
        -- intros [= <-]. unfold on_error.
           destruct (Hcatch _ eq_refl) as [[_ Hnone]|Hsome].
           ++ rewrite on_error_initial in Hnone.
              destruct (cached ≫= Cache.summary); [done|].
              right. right. by exists fetched, s.
           ++ rewrite on_error_initial in Hsome.
              destruct (cached ≫= Cache.summary); [by right; left|].
              destruct Hsome as (? & ? & ? & ? & ? & ?). done.
        -- intros [= <-]. right. right. by exists fetched, s.
      * intros [= <-]. destruct (Hcatch _ eq_refl); [by left | by right; left].
    + intros [= <-]. destruct (Hcatch _ eq_refl); [by left | by right; left].
  - intros entry s Hread Hentry Hs Hnone Hfresh.
    unfold loadScores, getStoredScoreSummary, getItem, usable.
    rewrite Hread, Hentry. simpl. by rewrite Hs, Hfresh, Hnone.
  - intros e. unfold loadScores, getStoredScoreSummary, getItem.
    destruct (getItem_rejects lf); [done|].
    destruct (usable now (items lf !! SCORE_SUMMARY_KEY)); [done|].
    destruct (fetchAllScores 200 network) as [urls [fetched| |]]; simpl; [|done..].
    destruct (computeSummary fetched); [|done..].
    unfold saveScoreSummary, setItem. by destruct (setItem_rejects lf).
  - intros Hread Hsettles. unfold loadScores, getStoredScoreSummary, getItem.
    rewrite Hread.
    destruct (usable now (items lf !! SCORE_SUMMARY_KEY)); [by eexists|].
    destruct (fetchAllScores 200 network) as [urls [fetched| |]]; simpl in *;
      [|by eexists|done].
    pose proof (computeSummary_settles fetched).
    destruct (computeSummary fetched); [|by eexists|done].
    unfold saveScoreSummary, setItem. destruct (setItem_rejects lf); by eexists.
Qed.

End Orchestrator.

Lemma loadScores_falls_back_witness :
  LoadScores.result
    (LoadScores.loadScores (H := utc_host) (store_with old_entry) failing_network
       end_of_march 1500)
  = JS.Returned {| LoadScores.summary := Some sample_summary;
                   LoadScores.scores :=
                     [JS.VObj [("variants_number", JS.VNum 10%float)];
                      JS.VObj [("variants_number", JS.VNum 30%float)]] |}.
Proof.
  apply (@loadScores_falls_back utc_host (store_with old_entry) failing_network
           end_of_march 1500 (Some old_entry) (JS.HttpError 500 200 1)).
  - reflexivity.
  - left. reflexivity.
Defined.

Lemma failed_fetch_leaves_cache_witness :
  LoadScores.store
    (LoadScores.loadScores (H := utc_host) (store_with old_entry) failing_network
       end_of_march 1500)
  = store_with old_entry.
Proof.
  apply (proj1 (@failed_fetch_leaves_cache utc_host (store_with old_entry) failing_network
                  end_of_march 1500) (JS.HttpError 500 200 1)).
  reflexivity.
Defined.

Lemma loadScores_result_shape_witness :
  LoadScores.loadScores (H := utc_host) (store_with summary_only_entry) failing_network
    end_of_march 1500
  = {| LoadScores.result :=
         JS.Returned {| LoadScores.summary := Some sample_summary;
                        LoadScores.scores := [] |};
       LoadScores.store := store_with summary_only_entry;
       LoadScores.requests := [] |}.
Proof.
  apply (proj1 (proj2 (@loadScores_result_shape utc_host (store_with summary_only_entry)
                         failing_network end_of_march 1500)) summary_only_entry
           sample_summary); reflexivity.
Defined.


Section TableFacts.
Context `{Host}.
Import JS.

Lemma count_traits_fold traits m :
  fold_left LoadTraits.count_categories traits m =
  fold_left (map_incr sameValueZero) (category_keys traits) m.
Proof.
  unfold category_keys. revert m.
  induction traits as [|trait traits IH]; intros m; csimpl; [done|].
  rewrite fmap_app, fold_left_app, IH. f_equal.
  unfold LoadTraits.count_categories.
  generalize (LoadTraits.categories_of trait). intros cs. revert m.
  induction cs as [|c cs IHcs]; intros m; csimpl; [done | by rewrite IHcs].
Qed.

Lemma count_traits_complete traits :
  counts_all sameValueZero (category_keys traits) (LoadTraits.count_traits traits).
Proof.
  unfold LoadTraits.count_traits. rewrite count_traits_fold.
  apply (counts_all_fold sameValueZero [] [] (category_keys traits)), counts_all_nil.
Qed.

Lemma trait_table_complete scores :
  counts_all sameValueZero (trait_key <$> scores) (trait_table scores).
Proof. apply (counts_all_fold sameValueZero [] []), counts_all_nil. Qed.

Lemma year_table_complete scores :
  counts_all String.eqb (omap release_year scores) (year_table scores).
Proof. apply (counts_all_fold String.eqb [] []), counts_all_nil. Qed.

Lemma by_count_desc_sorted {K} (m : list (K * nat)) :
  StronglySorted count_desc (sort LoadScores.by_count_desc m).
Proof.
  apply sort_sorted; [apply _|..]; unfold LoadScores.by_count_desc, count_desc;
    intros x y; [intros ?%Nat.ltb_lt | intros ?%Nat.ltb_ge]; lia.
Qed.

Lemma by_year_asc_sorted m : StronglySorted year_asc (sort LoadScores.by_year_asc m).
Proof.
  apply sort_sorted; [apply _|..]; unfold LoadScores.by_year_asc, year_asc;
    intros x y; [intros ?%Z.ltb_lt | intros ?%Z.ltb_ge]; lia.
Qed.

End TableFacts.

(** C4, as it is stated, fails on eleven scores with eleven reported traits:
    the summary reports eleven distinct traits and its reported-trait table
    has ten entries, none of them for the trait ["k"]. *)
Lemma topTraits_truncated :
  ∃ s, LoadScores.computeSummary (H := utc_host) eleven_traits = JS.Returned s
       ∧ JS.VStr "k" ∈ trait_key <$> eleven_traits
       ∧ LoadScores.uniqueTraits s = 11%nat
       ∧ length (LoadScores.topTraits s) = 10%nat
       ∧ Forall (λ entry, entry.1 ≠ JS.VStr "k") (LoadScores.topTraits s).
Proof.
  eexists. split; [reflexivity|]. split; [|split; [reflexivity|split; [reflexivity|]]].
  - unfold eleven_traits. cbn. do 10 right. left.
  - cbn. repeat constructor; discriminate.
Qed.

(** C4 (amended): the table of trait categories that the trait aggregator
    returns, the release-year table of a score summary, and the genome-build,
    licence, weight-type and release-year tables of the [loadPgs.js] summary
    are whole: each is a rearrangement of the table that has one entry for
    every distinct key counted and whose counts add up to the number of keys
    counted.  The reported-trait table is cut inside the aggregator: a score
    summary holds the first ten entries of the whole table in descending order
    of count (all of them when there are at most ten), with [uniqueTraits] the
    size of the whole table, and the [loadPgs.js] summary holds the first
    twenty-five. *)
Theorem frequency_tables_complete `{Host} :
  (∀ traits,
     counts_all JS.sameValueZero (category_keys traits) (LoadTraits.count_traits traits)
     ∧ LoadTraits.categories (LoadTraits.computeSummary traits)
       ≡ₚ LoadTraits.count_traits traits
     ∧ LoadTraits.totalCategories (LoadTraits.computeSummary traits)
       = length (LoadTraits.categories (LoadTraits.computeSummary traits)))
  ∧ (∀ scores s,
       LoadScores.computeSummary scores = JS.Returned s →
       counts_all String.eqb (omap release_year scores) (year_table scores)
       ∧ LoadScores.releaseYears s ≡ₚ year_table scores
       ∧ counts_all JS.sameValueZero (trait_key <$> scores) (trait_table scores)
       ∧ LoadScores.topTraits s
         = take 10 (JS.sort LoadScores.by_count_desc (trait_table scores))
       ∧ LoadScores.uniqueTraits s = length (trait_table scores))
  ∧ (∀ scores s,
       LoadPgs.computeScoreSummary scores = JS.Returned s →
       (∀ field, counts_all JS.sameValueZero (field_key field <$> scores)
                   (field_table field scores))
       ∧ LoadPgs.genome_build (LoadPgs.counts s) ≡ₚ field_table "genome_build" scores
       ∧ LoadPgs.license (LoadPgs.counts s) ≡ₚ field_table "license" scores
       ∧ LoadPgs.weight_type (LoadPgs.counts s) ≡ₚ field_table "weight_type" scores
       ∧ counts_all JS.sameValueZero (omap pgs_release_year scores) (pgs_year_table scores)
       ∧ LoadPgs.release_year (LoadPgs.counts s) ≡ₚ pgs_year_table scores
       ∧ LoadPgs.top_25_traits (LoadPgs.counts s)
         = take 25 (JS.sort LoadPgs.sortDesc (field_table "trait_reported" scores))).
Proof.
  split; [|split].
  - intros traits. split; [apply count_traits_complete|].
    unfold LoadTraits.computeSummary; simpl. split; [apply sort_perm|].
    by rewrite sort_length.
  - intros scores s [_ ->]%computeSummary_Returned; simpl.
    split; [apply year_table_complete|]. split; [apply sort_perm|].
    split; [apply trait_table_complete | done].
  - intros scores s ->%computeScoreSummary_counts; simpl.
    split; [intros field; apply (counts_all_fold JS.sameValueZero [] []), counts_all_nil|].
    repeat (split; [apply sort_perm|]).
    split; [apply (counts_all_fold JS.sameValueZero [] []), counts_all_nil|].
    split; [apply sort_perm | done].
Qed.

Lemma frequency_tables_complete_witness :
  LoadScores.releaseYears
    {| LoadScores.totalScores := 3; LoadScores.uniqueTraits := 1;
       LoadScores.variants := LoadScores.distribution [];
       LoadScores.topTraits := [(JS.VStr "NR", 3%nat)];
       LoadScores.releaseYears := [("2020", 1%nat); ("2021", 2%nat)] |}
  ≡ₚ year_table three_releases.
Proof.
  apply (proj1 (proj2 (@frequency_tables_complete utc_host)) three_releases).
  reflexivity.
Defined.




Section StringKeys.
Import JS.

Lemma sameValueZero_str_l c x : sameValueZero x (VStr c) = true ↔ x = VStr c.
Proof.
  destruct x; simpl; try (split; [done | discriminate]).
  rewrite String.eqb_eq. split; [by intros -> | by intros [= ->]].
Qed.

Lemma sameValueZero_str_r c x : sameValueZero (VStr c) x = true ↔ x = VStr c.
Proof.
  destruct x; simpl; try (split; [done | discriminate]).
  rewrite String.eqb_eq. split; [by intros -> | by intros [= ->]].
Qed.

End StringKeys.



(** C8, as it is stated, fails on a trait whose [trait_categories] is there
    and is the empty array, and on a score whose [trait_reported] is there and
    is [null]: each is counted under ["NR"]. *)
Lemma present_but_empty_counted_as_NR :
  JS.lookup_field "trait_categories" [("trait_categories", JS.VArr [])] = JS.VArr []
  ∧ LoadTraits.categories
      (LoadTraits.computeSummary [JS.VObj [("trait_categories", JS.VArr [])]])
    = [(JS.VStr "NR", 1%nat)]
  ∧ JS.lookup_field "trait_reported" [("trait_reported", JS.VNull)] = JS.VNull
  ∧ ∃ s, LoadScores.computeSummary (H := utc_host)
            [JS.VObj [("trait_reported", JS.VNull)]] = JS.Returned s
         ∧ LoadScores.topTraits s = [(JS.VStr "NR", 1%nat)].
Proof. repeat split. eexists. split; reflexivity. Qed.

(** C8 (amended): a score is counted under its [trait_reported] value
    whenever that value is neither [null] nor [undefined], so an empty string,
    [false] or 0 is counted under itself, and under ["NR"] when the field is
    absent or is [null].  A trait is counted once under each element of its
    [trait_categories] when that is an array of one or more elements, an empty
    string among them under itself, and once under ["NR"] when the field is
    absent, is no array or is the empty array.  In both tables the count kept
    for a string is the number of records counted under that string. *)
Theorem categorical_keys `{Host} :
  (∀ score,
     trait_key score =
     if JS.nullish (JS.get_opt score "trait_reported") then JS.VStr "NR"
     else JS.canon_key (JS.get_opt score "trait_reported"))
  ∧ (∀ scores s label,
       LoadScores.computeSummary scores = JS.Returned s →
       LoadScores.topTraits s
       = take 10 (JS.sort LoadScores.by_count_desc (trait_table scores))
       ∧ default 0%nat (JS.map_get JS.sameValueZero (trait_table scores) (JS.VStr label))
         = counted_under JS.sameValueZero (JS.VStr label) (trait_key <$> scores))
  ∧ (∀ trait c cs,
       JS.get_opt trait "trait_categories" = JS.VArr (c :: cs) →
       LoadTraits.categories_of trait = c :: cs)
  ∧ (∀ trait,
       (∀ c cs, JS.get_opt trait "trait_categories" ≠ JS.VArr (c :: cs)) →
       LoadTraits.categories_of trait = [JS.VStr "NR"])
  ∧ (∀ traits label,
       LoadTraits.categories (LoadTraits.computeSummary traits)
       = JS.sort LoadTraits.by_count_desc (LoadTraits.count_traits traits)
       ∧ default 0%nat
           (JS.map_get JS.sameValueZero (LoadTraits.count_traits traits) (JS.VStr label))
         = counted_under JS.sameValueZero (JS.VStr label) (category_keys traits)).
Proof.
  split; [|split; [|split; [|split]]].
  - intros score. unfold trait_key, JS.coalesce.
    by destruct (JS.nullish (JS.get_opt score "trait_reported")).
  - intros scores s label [_ ->]%computeSummary_Returned; simpl. split; [done|].
    unfold trait_table.
    by rewrite (fold_incr_count JS.sameValueZero (JS.VStr label)
                  (sameValueZero_str_l label) (sameValueZero_str_r label)).
  - intros trait c cs Hcs. unfold LoadTraits.categories_of. by rewrite Hcs.
  - intros trait Hnone. unfold LoadTraits.categories_of.
    destruct (JS.get_opt trait "trait_categories") as [| | | | |[|c cs]|]; try done.
    by destruct (Hnone c cs).
  - intros traits label. split; [done|].
    unfold LoadTraits.count_traits. rewrite count_traits_fold.
    by rewrite (fold_incr_count JS.sameValueZero (JS.VStr label)
                  (sameValueZero_str_l label) (sameValueZero_str_r label)).
Qed.

Lemma categorical_keys_witness :
  LoadTraits.categories_of (JS.VObj [("trait_categories", JS.VArr [JS.VStr ""])])
  = [JS.VStr ""]
  ∧ default 0%nat
      (JS.map_get JS.sameValueZero
         (trait_table [JS.VObj [("trait_reported", JS.VStr "")]; JS.VObj []]) (JS.VStr ""))
    = 1%nat.
Proof.
  destruct (@categorical_keys utc_host) as (_ & Hscores & Htraits & _).
  split.
  - apply Htraits. reflexivity.
  - destruct (Hscores [JS.VObj [("trait_reported", JS.VStr "")]; JS.VObj []]
                {| LoadScores.totalScores := 2; LoadScores.uniqueTraits := 2;
                   LoadScores.variants := LoadScores.distribution [];
                   LoadScores.topTraits := [(JS.VStr "", 1%nat); (JS.VStr "NR", 1%nat)];
                   LoadScores.releaseYears := [] |} "") as [_ ->].
    + reflexivity.
    + reflexivity.
Defined.

(** * The freshness policy *)

Section Freshness.
Context `{Host}.
Import Dates.

Lemma setMonth_calendar now n :
  setMonth now (getMonth now - n) = calendar_months_before now n.
Proof.
  unfold setMonth, calendar_months_before, getMonth, MakeDay, MakeDate.
  set (t := LocalTime now).
  replace (12 * YearFromTime t + MonthFromTime t - n)
    with ((MonthFromTime t - n) + YearFromTime t * 12) by lia.
  rewrite Z.div_add, Z.mod_add by lia.
  do 2 f_equal. rewrite (Z.add_comm (YearFromTime t)). lia.
Qed.

(** [YearFromTime t] is the largest year that starts on or before the day of
    [t]. *)
Lemma YearFromTime_spec t :
  DayFromYear (YearFromTime t) ≤ Day t < DayFromYear (YearFromTime t + 1).
Proof.
  unfold YearFromTime, DayFromYear. generalize (Day t). intros d.
  destruct (Z.ltb_spec d (365 * (1970 + d * 400 / 146097 - 1970)
                          + (1970 + d * 400 / 146097 - 1969) / 4
                          - (1970 + d * 400 / 146097 - 1901) / 100
                          + (1970 + d * 400 / 146097 - 1601) / 400));
    [|destruct (Z.leb_spec (365 * (1970 + d * 400 / 146097 + 1 - 1970)
                            + (1970 + d * 400 / 146097 + 1 - 1969) / 4
                            - (1970 + d * 400 / 146097 + 1 - 1901) / 100
                            + (1970 + d * 400 / 146097 + 1 - 1601) / 400) d)];
    Z.div_mod_to_equations; lia.
Qed.

(** A year has as many days as separate its first day from the next
    year's. *)
Lemma DaysInYear_spec y : DayFromYear (y + 1) - DayFromYear y = DaysInYear y.
Proof.
  unfold DayFromYear, DaysInYear.
  destruct (Z.eqb_spec (y mod 4) 0), (Z.eqb_spec (y mod 100) 0),
    (Z.eqb_spec (y mod 400) 0); simpl; Z.div_mod_to_equations; lia.
Qed.

Lemma MonthFromTime_range t : 0 ≤ MonthFromTime t < 12.
Proof.
  unfold MonthFromTime.
  repeat match goal with
         | |- context [if ?a <? ?b then _ else _] => destruct (a <? b)
         end; lia.
Qed.

Lemma MakeDay_in_year y m date :
  0 ≤ m < 12 →
  MakeDay y m date =
  DayFromYear y + month_start (if DaysInYear y =? 366 then 1 else 0) m + date - 1.
Proof.
  intros Hm. unfold MakeDay.
  by rewrite Z.div_small, Z.mod_small, Z.add_0_r by lia.
Qed.

(** The year, month and day of the month of a time give back its day. *)
Lemma MakeDay_fields t :
  MakeDay (YearFromTime t) (MonthFromTime t) (DateFromTime t) = Day t.
Proof.
  rewrite MakeDay_in_year by apply MonthFromTime_range.
  unfold DateFromTime, DayWithinYear, InLeapYear. lia.
Qed.

End Freshness.


(** C6: [isCacheWithinMonths] is true exactly when [savedAt] parses to a
    valid time that is at or after the cutoff, the cutoff being the current
    time with [months] calendar months subtracted; an absent or unparseable
    [savedAt] gives false.  With three months, a [savedAt] at the cutoff
    itself is fresh and one a day before the cutoff is not.  (That no engine
    parses the empty string as a date is a premise.) *)
Theorem isCacheWithinMonths_spec `{Host} now savedAt months :
  Date_parse "" = None →
  (LoadScores.isCacheWithinMonths now savedAt months = true ↔
   ∃ s saved cutoff,
     savedAt = Some s ∧ Date_parse s = Some saved
     ∧ calendar_months_before now months = Some cutoff
     ∧ cutoff ≤ saved)
  ∧ LoadScores.isCacheWithinMonths now None months = false
  ∧ (∀ s, Date_parse s = None →
          LoadScores.isCacheWithinMonths now (Some s) months = false)
  ∧ (∀ s cutoff,
       calendar_months_before now 3 = Some cutoff →
       (Date_parse s = Some cutoff →
        LoadScores.isCacheWithinMonths now (Some s) 3 = true)
       ∧ (Date_parse s = Some (cutoff - Dates.msPerDay) →
          LoadScores.isCacheWithinMonths now (Some s) 3 = false)).
Proof.
  intros Hempty.
  assert (∀ s n, LoadScores.isCacheWithinMonths now (Some s) n =
                 match Date_parse s, calendar_months_before now n with
                 | Some saved, Some cutoff => cutoff <=? saved
                 | _, _ => false
                 end) as Hsome.
  { intros s n. unfold LoadScores.isCacheWithinMonths. rewrite setMonth_calendar.
    destruct (String.eqb_spec s "") as [->|_]; [by rewrite Hempty | done]. }
  split; [|split; [done|split]].
  - destruct savedAt as [s|]; [|split; [done | by intros (? & ? & ? & ? & _)]].
    rewrite Hsome. split.
    + destruct (Date_parse s) as [saved|] eqn:Hsaved; [|done].
      destruct (calendar_months_before now months) as [cutoff|]; [|done].
      intros ?%Z.leb_le. by exists s, saved, cutoff.
    + intros (? & saved & cutoff & [= <-] & -> & -> & ?). by apply Z.leb_le.
  - intros s Hs. by rewrite Hsome, Hs.
  - intros s cutoff Hcutoff. rewrite Hsome, Hcutoff. split; intros ->.
    + apply Z.leb_refl.
    + apply Z.leb_gt. unfold Dates.msPerDay. lia.
Qed.

Lemma isCacheWithinMonths_spec_witness :
  LoadScores.isCacheWithinMonths (H := utc_host) end_of_march
    (Some "2023-12-31T10:00:00.000Z") 3 = true
  ∧ LoadScores.isCacheWithinMonths (H := utc_host) end_of_march
      (Some "2023-12-30T10:00:00.000Z") 3 = false.
Proof.
  destruct (@isCacheWithinMonths_spec utc_host end_of_march None 3 eq_refl)
    as (_ & _ & _ & Hedge).
  split.
  - apply (Hedge "2023-12-31T10:00:00.000Z" 1704016800000); reflexivity.
  - apply (Hedge "2023-12-30T10:00:00.000Z" 1704016800000); reflexivity.
Defined.

(** The cutoff is found in the calendar, not 90 days back: at the end of March
    2024 it is the end of December 2023, 91 days earlier, and at the end of May
    2024, February having no 31st day, it is the 2nd of March. *)
Example cutoff_end_of_march :
  Dates.toISOString <$> calendar_months_before (H := utc_host) end_of_march 3
  = Some "2023-12-31T10:00:00.000Z"
  ∧ end_of_march - 91 * Dates.msPerDay = 1704016800000
  ∧ Dates.parseISO "2023-12-31T10:00:00.000Z" = Some 1704016800000.
Proof. repeat split. Qed.

Example cutoff_end_of_may :
  (now ← Dates.parseISO "2024-05-31T00:00:00.000Z";
   Dates.toISOString <$> calendar_months_before (H := utc_host) now 3)
  = Some "2024-03-02T00:00:00.000Z".
Proof. reflexivity. Qed.

(** * Small runs *)

Example quantile_runs :
  LoadScores.quantile [] 0.5%float = JS.VNull
  ∧ LoadScores.quantile [7]%float 0.5%float = JS.VNum 7%float
  ∧ LoadScores.quantile [1; 2]%float 0.5%float = JS.VNum 1.5%float
  ∧ LoadScores.quantile [1; 2; 3; 4]%float 0.5%float = JS.VNum 2.5%float
  ∧ LoadScores.quantile [1; 2; 3]%float 1%float = JS.VNum 3%float.
Proof. repeat split. Qed.

Example fetch_fails_on_second_page :
  LoadScores.fetchAllScores 200 failing_network
  = (requests_at 200 [0%nat; 1%nat], JS.Threw (JS.HttpError 500 200 1)).
Proof. reflexivity. Qed.

Example fetch_rejects_other_shapes :
  (LoadScores.fetchAllScores 200
     [LoadScores.Replied {| LoadScores.ok := true; LoadScores.status := 200;
                            LoadScores.json :=
                              Some (JS.VObj [("results", JS.VStr "none")]) |}]).2
  = JS.Threw JS.FormatError.
Proof. reflexivity. Qed.

Example summary_of_four_variants :
  LoadScores.variants <$>
    match LoadScores.computeSummary (H := utc_host) four_variants with
    | JS.Returned s => Some s
    | _ => None
    end
  = Some {| LoadScores.min := JS.VNum 1%float; LoadScores.max := JS.VNum 4%float;
            LoadScores.mean := JS.VNum 2.5%float; LoadScores.median := JS.VNum 2.5%float |}.
Proof. reflexivity. Qed.

Example aggregation_throws_on_null_record :
  LoadScores.computeSummary (H := utc_host) [JS.VNull]
  = JS.Threw (JS.TypeError "Cannot read properties of null").
Proof. reflexivity. Qed.

Example fetch_then_save :
  let run :=
    LoadScores.loadScores (H := utc_host) (store_with old_entry)
      [envelope four_variants JS.VNull] end_of_march 1500 in
  LoadScores.requests run = requests_at 200 [0%nat]
  ∧ (LoadScores.items (LoadScores.store run) !! LoadScores.SCORE_SUMMARY_KEY)
      ≫= LoadScores.Cache.savedAt = Some "2024-03-31T10:00:01.500Z"
  ∧ LoadScores.scores <$>
      match LoadScores.result run with JS.Returned r => Some r | _ => None end
    = Some four_variants.
Proof. repeat split. Qed.

Example pgs_summary_of_three_releases :
  LoadPgs.counts <$>
    match LoadPgs.computeScoreSummary (H := utc_host) three_releases with
    | JS.Returned s => Some s
    | _ => None
    end
  = Some {| LoadPgs.genome_build := [(JS.VStr "NR", 3%nat)];
            LoadPgs.license := [(JS.VStr "NR", 3%nat)];
            LoadPgs.weight_type := [(JS.VStr "NR", 3%nat)];
            LoadPgs.release_year := [(JS.VStr "2021", 2%nat); (JS.VStr "2020", 1%nat)];
            LoadPgs.top_25_traits := [(JS.VStr "NR", 3%nat)] |}.
Proof. reflexivity. Qed.

Example pgs_quantile_runs :
  LoadPgs.quantile [] 0.5%float = JS.VNull
  ∧ LoadPgs.quantile [1; 2; 3; 4]%float 0.5%float = JS.VNum 2.5%float.
Proof. repeat split. Qed.

(** * Further properties of the fetchers *)

Section Pagination.
Import JS LoadScores.

Lemma continues_step pageSize r records network offset all :
  continues pageSize r records →
  fetch_loop pageSize (r :: network) offset all =
  (let '(urls, out) :=
     fetch_loop pageSize network (offset + length records)%nat (all ++ records) in
   ({| limit := pageSize; offset := offset |} :: urls, out)).
Proof.
  intros (data & (status & -> & Hpage) & Hstops). simpl. by rewrite Hpage, Hstops.
Qed.

Lemma final_step pageSize r records network offset all :
  final pageSize r records →
  fetch_loop pageSize (r :: network) offset all =
  ([{| limit := pageSize; offset := offset |}], Returned (all ++ records)).
Proof.
  intros (data & (status & -> & Hpage) & Hstops). simpl. by rewrite Hpage, Hstops.
Qed.

Lemma offsets_from_app offset sizes sizes' :
  offsets_from offset (sizes ++ sizes') =
  offsets_from offset sizes ++ offsets_from (offset + sum_list sizes) sizes'.
Proof.
  revert offset. induction sizes as [|n sizes IH]; intros offset; simpl.
  - by rewrite Nat.add_0_r.
  - by rewrite IH, Nat.add_assoc.
Qed.

(** The loop over pages that all continue. *)
Lemma continues_prefix pageSize replies pages network :
  Forall2 (continues pageSize) replies pages →
  ∀ offset all,
    fetch_loop pageSize (replies ++ network) offset all =
    (let '(urls, out) :=
       fetch_loop pageSize network (offset + sum_list (length <$> pages))%nat
         (all ++ concat pages) in
     (requests_at pageSize (offsets_from offset (length <$> pages)) ++ urls, out)).
Proof.
  induction 1 as [|r records replies pages Hr _ IH]; intros offset all.
  - simpl. rewrite Nat.add_0_r, app_nil_r. by destruct (fetch_loop _ _ _ _).
  - change ((r :: replies) ++ network) with (r :: (replies ++ network)).
    rewrite (continues_step _ _ _ _ _ _ Hr), IH. csimpl.
    rewrite Nat.add_assoc, <- app_assoc. by destruct (fetch_loop _ _ _ _).
Qed.

End Pagination.

(** X1: when a response with a failure status follows pages that all
    continue, [fetchAllScores] throws the error that carries that status and
    the offset of the failed request, which is the number of records received
    so far; those records are not returned. *)
Theorem fetchAllScores_http_error pageSize replies pages response rest :
  Forall2 (continues pageSize) replies pages →
  LoadScores.ok response = false →
  LoadScores.fetchAllScores pageSize (replies ++ LoadScores.Replied response :: rest) =
  (requests_at pageSize (offsets_from 0 (length <$> (pages ++ [[]]))),
   JS.Threw (JS.HttpError (LoadScores.status response) pageSize
               (sum_list (length <$> pages)))).
Proof.
  intros Hpages Hok. unfold LoadScores.fetchAllScores.
  rewrite (continues_prefix _ _ _ _ Hpages). simpl. rewrite Hok. simpl.
  rewrite fmap_app, offsets_from_app. unfold requests_at. by rewrite fmap_app.
Qed.

Lemma enveloped_continues pageSize r records next :
  enveloped r records next → JS.nullish next = false → records ≠ [] →
  continues pageSize r records.
Proof.
  destruct 1 as [status fields records next Hres Hnext]. intros Hnn Hne.
  exists (JS.VObj fields). split.
  - exists status. split; [done|]. unfold LoadScores.page_results. simpl. by rewrite Hres.
  - unfold LoadScores.stops. simpl. rewrite Hnext, Hnn.
    by destruct records.
Qed.

Lemma fetchAllScores_http_error_witness :
  LoadScores.fetchAllScores 200 failing_network =
  (requests_at 200 [0%nat; 1%nat], JS.Threw (JS.HttpError 500 200 1)).
Proof.
  apply (fetchAllScores_http_error 200
           [envelope [JS.VObj [("variants_number", JS.VNum 7%float)]] (JS.VStr "next")]
           [[JS.VObj [("variants_number", JS.VNum 7%float)]]]
           {| LoadScores.ok := false; LoadScores.status := 500; LoadScores.json := None |}
           []).
  - repeat constructor.
    apply (enveloped_continues 200 _ _ (JS.VStr "next")); [by constructor | done | done].
  - reflexivity.
Defined.

(** X2: the loop has no cap on the number of pages.  After pages that all
    continue it has sent one request more than it has received pages, at the
    offset that is the number of records received, and it has not returned. *)
Theorem fetchAllScores_keeps_asking pageSize replies pages :
  Forall2 (continues pageSize) replies pages →
  LoadScores.fetchAllScores pageSize replies =
  (requests_at pageSize (offsets_from 0 (length <$> (pages ++ [[]]))), JS.Pending).
Proof.
  intros Hpages. unfold LoadScores.fetchAllScores.
  rewrite <- (app_nil_r replies), (continues_prefix _ _ _ _ Hpages). simpl.
  rewrite fmap_app, offsets_from_app. unfold requests_at. by rewrite fmap_app.
Qed.

Lemma fetchAllScores_keeps_asking_witness :
  LoadScores.fetchAllScores 1
    [bare [JS.VNum 1%float]; envelope [JS.VNum 2%float; JS.VNum 3%float] JS.VNull]
  = (requests_at 1 [0%nat; 1%nat; 3%nat], JS.Pending).
Proof.
  apply (fetchAllScores_keeps_asking 1
           [bare [JS.VNum 1%float]; envelope [JS.VNum 2%float; JS.VNum 3%float] JS.VNull]
           [[JS.VNum 1%float]; [JS.VNum 2%float; JS.VNum 3%float]]).
  repeat constructor.
  - exists (JS.VArr [JS.VNum 1%float]). split; [by exists 200%nat | reflexivity].
  - eexists. split; [by exists 200%nat | reflexivity].
Defined.

Lemma fetch_loop_returned pageSize network :
  ∀ offset all urls records,
    LoadScores.fetch_loop pageSize network offset all = (urls, JS.Returned records) →
    ∃ replies pages last last_records rest,
      network = replies ++ last :: rest
      ∧ Forall2 (continues pageSize) replies pages
      ∧ final pageSize last last_records
      ∧ records = all ++ concat pages ++ last_records
      ∧ urls = requests_at pageSize
                 (offsets_from offset (length <$> (pages ++ [last_records]))).
Proof.
  induction network as [|r network IH]; intros offset all urls records; [done|].
  destruct r as [|[ok status [data|]]]; simpl; try done; [|by destruct ok].
  destruct ok; simpl; [|done].
  destruct (LoadScores.page_results data) as [results| |] eqn:Hpage; try done.
  destruct (LoadScores.stops pageSize data results) as [[|]| |] eqn:Hstops; try done.
  - intros [= <- <-].
    exists [], [], (LoadScores.Replied
                      {| LoadScores.ok := true; LoadScores.status := status;
                         LoadScores.json := Some data |}), results, network.
    split; [done|]. split; [constructor|]. split; [|done].
    exists data. split; [by exists status | done].
  - destruct (LoadScores.fetch_loop pageSize network (offset + length results)
                (all ++ results)) as [urls' out] eqn:Hrest.
    intros [= <- ->].
    destruct (IH _ _ _ _ Hrest) as (replies & pages & last & lr & rest & -> & Hc & Hf & -> & ->).
    exists (LoadScores.Replied
              {| LoadScores.ok := true; LoadScores.status := status;
                 LoadScores.json := Some data |} :: replies),
      (results :: pages), last, lr, rest.
    split; [done|]. split.
    { constructor; [|done]. exists data. split; [by exists status | done]. }
    split; [done|]. split; [by simpl; rewrite <- !app_assoc | done].
Qed.

(** X3: whatever the replies are, a list that [fetchAllScores] returns is the
    concatenation, in request order, of the records of the pages it received:
    of pages that continue, then of one page at which it stops.  It has sent
    one request for each of these pages, each with [limit] the page size and
    [offset] the number of records received before. *)
Theorem fetchAllScores_returns_pages pageSize network urls records :
  LoadScores.fetchAllScores pageSize network = (urls, JS.Returned records) →
  ∃ replies pages last last_records rest,
    network = replies ++ last :: rest
    ∧ Forall2 (continues pageSize) replies pages
    ∧ final pageSize last last_records
    ∧ records = concat pages ++ last_records
    ∧ urls = requests_at pageSize
               (offsets_from 0 (length <$> (pages ++ [last_records]))).
Proof. apply fetch_loop_returned. Qed.

Lemma fetchAllScores_returns_pages_witness :
  ∃ replies pages last last_records rest,
    [envelope [JS.VNum 1%float] (JS.VStr "next"); bare []; bare [JS.VNum 2%float]]
    = replies ++ last :: rest
    ∧ Forall2 (continues 200) replies pages
    ∧ final 200 last last_records
    ∧ [JS.VNum 1%float] = concat pages ++ last_records
    ∧ requests_at 200 [0%nat; 1%nat]
      = requests_at 200 (offsets_from 0 (length <$> (pages ++ [last_records]))).
Proof.
  apply (fetchAllScores_returns_pages 200
           [envelope [JS.VNum 1%float] (JS.VStr "next"); bare []; bare [JS.VNum 2%float]]).
  reflexivity.
Defined.

(** X4: a successful response whose JSON body is not a list of records.  A
    body that is an object without [results] (or with [results] [null]), or a
    number, string or boolean, is taken as a page without records: the fetcher
    stops and returns what it has received, and throws nothing.  A body whose
    [results] is there and is no array makes it throw the format error, and a
    body that is [null] a [TypeError]. *)
Theorem fetchAllScores_odd_bodies pageSize replies pages status data rest :
  Forall2 (continues pageSize) replies pages →
  JS.isArray data = false →
  let reply := LoadScores.Replied
                 {| LoadScores.ok := true; LoadScores.status := status;
                    LoadScores.json := Some data |} in
  let outcome := (LoadScores.fetchAllScores pageSize (replies ++ reply :: rest)).2 in
  (JS.nullish data = true → ∃ msg, outcome = JS.Threw (JS.TypeError msg))
  ∧ (JS.nullish data = false →
     JS.nullish (JS.get_opt data "results") = true →
     outcome = JS.Returned (concat pages))
  ∧ (JS.nullish data = false →
     JS.nullish (JS.get_opt data "results") = false →
     JS.isArray (JS.get_opt data "results") = false →
     outcome = JS.Threw JS.FormatError).
Proof.
  intros Hpages Harr reply outcome. subst reply outcome.
  unfold LoadScores.fetchAllScores. rewrite (continues_prefix _ _ _ _ Hpages).
  cbn [LoadScores.fetch_loop LoadScores.ok LoadScores.json negb].
  unfold LoadScores.page_results. rewrite Harr.
  split; [|split].
  - intros Hnull. destruct data; try done; simpl; eauto.
  - intros Hnn Hres. rewrite (get_Returned _ _ Hnn). csimpl.
    unfold JS.coalesce. rewrite Hres. simpl. by rewrite app_nil_r.
  - intros Hnn Hres Hresarr. rewrite (get_Returned _ _ Hnn). csimpl.
    unfold JS.coalesce. rewrite Hres.
    by destruct (JS.get_opt data "results").
Qed.

Lemma fetchAllScores_odd_bodies_witness :
  (LoadScores.fetchAllScores 200
     [envelope [JS.VNum 1%float] (JS.VStr "next");
      LoadScores.Replied
        {| LoadScores.ok := true; LoadScores.status := 200;
           LoadScores.json := Some (JS.VObj [("detail", JS.VStr "Not found.")]) |}]).2
  = JS.Returned [JS.VNum 1%float].
Proof.
  apply (fetchAllScores_odd_bodies 200 [envelope [JS.VNum 1%float] (JS.VStr "next")]
           [[JS.VNum 1%float]] 200 (JS.VObj [("detail", JS.VStr "Not found.")]) []).
  - repeat constructor.
    apply (enveloped_continues 200 _ _ (JS.VStr "next")); [by constructor | done | done].
  - reflexivity.
  - reflexivity.
  - reflexivity.
Defined.

Section Capped.
Import JS.

Lemma fetch_loop_sends pageSize network offset all :
  (1 ≤ length (LoadScores.fetch_loop pageSize network offset all).1)%nat.
Proof.
  destruct network as [|[|[ok status [data|]]] network]; simpl; try lia;
    destruct ok; simpl; try lia.
  destruct (LoadScores.page_results data); simpl; try lia.
  destruct (LoadScores.stops pageSize data a) as [[|]| |]; simpl; try lia.
  destruct (LoadScores.fetch_loop _ _ _ _). simpl. lia.
Qed.


Lemma capped_bound pageSize cap network :
  ∀ page offset all,
    (length (LoadTraits.fetch_loop pageSize (Some cap) network page offset all).1
     ≤ cap - page)%nat.
Proof.
  induction network as [|r network IH]; intros page offset all;
    cbn [LoadTraits.fetch_loop LoadTraits.below];
    destruct (Nat.ltb_spec page cap); cbn [negb]; simpl; try lia.
  destruct r as [|[ok status [data|]]]; simpl; try lia;
    destruct ok; simpl; try lia.
  destruct (LoadScores.page_results data) as [results| |]; simpl; try lia.
  destruct (LoadScores.stops pageSize data results) as [[|]| |]; simpl; try lia.
  specialize (IH (S page) (offset + length results)%nat (all ++ results)).
  destruct (LoadTraits.fetch_loop _ _ _ _ _ _). simpl in *. lia.
Qed.

Lemma capped_prefix pageSize maxPages replies pages network :
  Forall2 (continues pageSize) replies pages →
  ∀ page offset all,
    match maxPages with
    | None => True
    | Some cap => (page + length replies ≤ cap)%nat
    end →
    LoadTraits.fetch_loop pageSize maxPages (replies ++ network) page offset all =
    (let '(urls, out) :=
       LoadTraits.fetch_loop pageSize maxPages network (page + length replies)
         (offset + sum_list (length <$> pages))%nat (all ++ concat pages) in
     (requests_at pageSize (offsets_from offset (length <$> pages)) ++ urls, out)).
Proof.
  induction 1 as [|r records replies pages Hr _ IH]; intros page offset all Hcap.
  - simpl. rewrite !Nat.add_0_r, app_nil_r. by destruct (LoadTraits.fetch_loop _ _ _ _ _ _).
  - assert (LoadTraits.below page maxPages = true) as Hbelow.
    { destruct maxPages as [cap|]; simpl in *; [|done]. apply Nat.ltb_lt. lia. }
    destruct Hr as (data & (status & -> & Hpage) & Hstops).
    cbn [app LoadTraits.fetch_loop]. rewrite Hbelow.
    cbn [negb LoadScores.ok LoadScores.json]. rewrite Hpage, Hstops.
    rewrite IH by (destruct maxPages; simpl in *; [lia | done]).
    replace (S page + length replies)%nat
      with (page + length (LoadScores.Replied
                             {| LoadScores.ok := true; LoadScores.status := status;
                                LoadScores.json := Some data |} :: replies))%nat
      by (simpl; lia).
    csimpl. rewrite Nat.add_assoc, <- app_assoc.
    by destruct (LoadTraits.fetch_loop _ _ _ _ _ _).
Qed.

End Capped.

(** X5: with a cap on the number of pages, [fetchAllTraits] and the
    [fetchAllScores] of [loadPgs.js] never send more requests than the cap; and
    when as many pages as the cap have been received and all of them continue,
    they return the records of these pages and throw nothing, whatever the
    server still holds. *)
Theorem capped_fetch_stops_at_cap pageSize cap :
  (∀ network,
     (length (LoadTraits.fetchAllTraits pageSize (Some cap) network).1 ≤ cap)%nat
     ∧ (length (LoadPgs.fetchAllScores pageSize (Some cap) network).1 ≤ cap)%nat)
  ∧ (∀ replies pages rest,
       Forall2 (continues pageSize) replies pages →
       length replies = cap →
       LoadTraits.fetchAllTraits pageSize (Some cap) (replies ++ rest) =
       (requests_at pageSize (offsets_from 0 (length <$> pages)),
        JS.Returned (concat pages))
       ∧ LoadPgs.fetchAllScores pageSize (Some cap) (replies ++ rest) =
         (requests_at pageSize (offsets_from 0 (length <$> pages)),
          JS.Returned (concat pages))).
Proof.
  split.
  - intros network. unfold LoadPgs.fetchAllScores, LoadTraits.fetchAllTraits.
    pose proof (capped_bound pageSize cap network 0 0 []). split; lia.
  - intros replies pages rest Hpages Hcap.
    unfold LoadPgs.fetchAllScores, LoadTraits.fetchAllTraits.
    rewrite (capped_prefix _ _ _ _ _ Hpages) by (simpl; lia).
    rewrite Hcap. simpl.
    assert (LoadTraits.fetch_loop pageSize (Some cap) rest cap
              (sum_list (length <$> pages)) (concat pages)
            = ([], JS.Returned (concat pages))) as ->.
    { destruct rest; simpl; by rewrite Nat.ltb_irrefl. }
    by rewrite app_nil_r.
Qed.

Lemma capped_fetch_stops_at_cap_witness :
  LoadPgs.fetchAllScores 1 (Some 2%nat)
    [bare [JS.VNum 1%float]; bare [JS.VNum 2%float]; bare [JS.VNum 3%float]]
  = (requests_at 1 [0%nat; 1%nat], JS.Returned [JS.VNum 1%float; JS.VNum 2%float]).
Proof.
  apply (proj2 (capped_fetch_stops_at_cap 1 2)
           [bare [JS.VNum 1%float]; bare [JS.VNum 2%float]]
           [[JS.VNum 1%float]; [JS.VNum 2%float]] [bare [JS.VNum 3%float]]).
  - repeat constructor; (eexists; split; [by exists 200%nat | reflexivity]).
  - reflexivity.
Defined.



(** * Further properties of the aggregators *)

Section Errors.
Context `{Host}.
Import JS.

Lemma mapM_Threw {A B} (f : A → outcome B) l e :
  mapM f l = Threw e → ∃ x, x ∈ l ∧ f x = Threw e.
Proof.
  induction l as [|x l IH]; [done|]. cbn [mapM].
  destruct (f x) as [y| |] eqn:E; csimpl; [|intros [= <-]; exists x; split; [left|done]|done].
  destruct (mapM f l); csimpl; [done| |done].
  intros [= <-]. destruct (IH eq_refl) as (x' & ? & ?). exists x'. split; [by right|done].
Qed.

Lemma foldM_Threw {S A} (f : S → A → outcome S) l e :
  ∀ s, foldM f s l = Threw e → ∃ s' x, x ∈ l ∧ f s' x = Threw e.
Proof.
  induction l as [|x l IH]; intros s; [done|]. cbn [foldM].
  destruct (f s x) as [s1| |] eqn:E; csimpl; [| |done].
  - intros (s' & x' & ? & ?)%IH. exists s', x'. split; [by right|done].
  - intros [= <-]. exists s, x. split; [left|done].
Qed.

Lemma get_Threw v name e : get v name = Threw e → ∃ msg, e = TypeError msg.
Proof. destruct v; simpl; intros [= <-] || done; eauto. Qed.

Lemma count_score_Threw maps score e :
  LoadScores.count_score maps score = Threw e → ∃ msg, e = TypeError msg.
Proof.
  destruct maps as [byTrait byReleaseYear]. unfold LoadScores.count_score.
  destruct (nullish score) eqn:Hnn; [destruct score; try done; intros [= <-]; eauto|].
  rewrite !get_Returned by done. csimpl.
  destruct (coalesce (get_opt score "date_release") (VStr "")); csimpl;
    try (intros [= <-]; eauto).
  by destruct (LoadScores.leading_year s).
Qed.

Lemma mapM_non_nullish (f : value → float) name scores :
  Forall (λ score, nullish score = false) scores →
  mapM (λ item, v ← get item name; Returned (f v)) scores =
  Returned ((λ item, f (get_opt item name)) <$> scores).
Proof.
  induction 1 as [|score scores Hnn _ IH]; [done|].
  cbn [mapM]. rewrite get_Returned by done. csimpl. by rewrite IH.
Qed.

(** [computeScoreSummary] returns on scores none of which is [null] or
    [undefined]. *)
Lemma computeScoreSummary_Returned scores :
  Forall (λ score, nullish score = false) scores →
  ∃ s, LoadPgs.computeScoreSummary scores = Returned s.
Proof.
  intros Hnn. unfold LoadPgs.computeScoreSummary.
  rewrite (mapM_non_nullish LoadScores.ToNumber) by done. csimpl.
  destruct (pgs_foldM scores Hnn
              {| LoadPgs.byGenomeBuild := []; LoadPgs.byLicense := [];
                 LoadPgs.byWeightType := []; LoadPgs.byTrait := [];
                 LoadPgs.byReleaseYear := []; LoadPgs.missingFtp := 0 |}) as [missing ->].
  csimpl. by eexists.
Qed.

Lemma computeScoreSummary_inv scores s :
  LoadPgs.computeScoreSummary scores = Returned s →
  Forall (λ score, nullish score = false) scores.
Proof.
  unfold LoadPgs.computeScoreSummary.
  destruct (mapM _ scores) as [numbers| |]; [|done..]. csimpl.
  destruct (foldM LoadPgs.count_score _ scores) as [tally| |] eqn:Hfold; [|done..].
  intros _. by eapply pgs_foldM_inv.
Qed.

Lemma computeScoreSummary_settles scores : LoadPgs.computeScoreSummary scores ≠ Pending.
Proof.
  unfold LoadPgs.computeScoreSummary.
  pose proof (mapM_settles
                (λ s, v ← get s "variants_number"; Returned (LoadScores.ToNumber v)) scores)
    as Hmap.
  destruct (mapM _ scores); [|done|].
  - csimpl.
    pose proof (foldM_settles LoadPgs.count_score scores) as Hfold.
    destruct (foldM LoadPgs.count_score _ scores) eqn:E; [done..|].
    exfalso. eapply Hfold; [|exact E].
    intros tally x. unfold LoadPgs.count_score. by destruct x.
  - destruct Hmap; [|done]. intros x. by destruct x.
Qed.

Lemma not_Forall_bool {A} (b : A → bool) (v : bool) l :
  ¬ Forall (λ x, b x = v) l ↔ Exists (λ x, b x = negb v) l.
Proof.
  induction l as [|x l IH].
  - split; [intros Hn; destruct Hn; constructor | inversion 1].
  - rewrite Forall_cons, Exists_cons, <- IH.
    destruct (b x) eqn:E, v; simpl; intuition congruence.
Qed.

End Errors.

(** X7: the score aggregator of [loadScores.mjs] throws exactly when some
    record is [null] or [undefined] or has a [date_release] that is neither a
    string nor [null] nor absent, and what it throws is a [TypeError]; on all
    other input it returns.  The aggregator of [loadPgs.js], which tests the
    type of [date_release] first, throws exactly when some record is [null] or
    [undefined]. *)
Theorem aggregators_throw `{Host} scores :
  ((∃ e, LoadScores.computeSummary scores = JS.Threw e)
   ↔ Exists (λ score, well_formed_score score = false) scores)
  ∧ (∀ e, LoadScores.computeSummary scores = JS.Threw e → ∃ msg, e = JS.TypeError msg)
  ∧ ((∃ e, LoadPgs.computeScoreSummary scores = JS.Threw e)
     ↔ Exists (λ score, JS.nullish score = true) scores).
Proof.
  split; [|split].
  - rewrite <- (not_Forall_bool well_formed_score true). split.
    + intros [e He] Hwf.
      pose proof (proj2 (computeSummary_Returned scores _) (conj Hwf eq_refl)). congruence.
    + intros Hnot. pose proof (computeSummary_settles scores).
      destruct (LoadScores.computeSummary scores) as [s| |] eqn:E; [|by eexists|done].
      destruct Hnot. by apply computeSummary_Returned in E as [? _].
  - intros e. unfold LoadScores.computeSummary.
    destruct (JS.mapM _ scores) as [numbers| |] eqn:Hmap; csimpl; [| |done].
    + destruct (JS.foldM LoadScores.count_score ([], []) scores) as [[??]| |] eqn:Hfold;
        csimpl; [done| |done].
      intros [= <-]. apply foldM_Threw in Hfold as (maps & score & _ & Hthrow).
      by eapply count_score_Threw.
    + intros [= <-]. apply mapM_Threw in Hmap as (score & _ & Hthrow).
      destruct (JS.get score "variants_number") eqn:Hget; csimpl in Hthrow; try done.
      injection Hthrow as <-. by eapply get_Threw.
  - rewrite <- (not_Forall_bool JS.nullish false). split.
    + intros [e He] Hnn. destruct (computeScoreSummary_Returned scores Hnn). congruence.
    + intros Hnot. pose proof (computeScoreSummary_settles scores).
      destruct (LoadPgs.computeScoreSummary scores) as [s| |] eqn:E; [|by eexists|done].
      destruct Hnot. by eapply computeScoreSummary_inv.
Qed.

Lemma aggregators_throw_witness :
  ∃ e, LoadScores.computeSummary (H := utc_host)
         [JS.VObj [("date_release", JS.VNum 2020%float)]] = JS.Threw e.
Proof.
  apply (proj1 (@aggregators_throw utc_host [JS.VObj [("date_release", JS.VNum 2020%float)]])).
  left. reflexivity.
Defined.

(** X8: the reported-trait table of a score summary has ten entries, or as
    many as there are distinct traits when these are fewer; together with the
    entries left out it makes up the whole table, and no entry left out has a
    larger count than an entry kept. *)
Theorem topTraits_are_largest `{Host} scores s :
  LoadScores.computeSummary scores = JS.Returned s →
  length (LoadScores.topTraits s) = Nat.min 10 (LoadScores.uniqueTraits s)
  ∧ ∃ omitted,
      trait_table scores ≡ₚ LoadScores.topTraits s ++ omitted
      ∧ ∀ kept other,
          kept ∈ LoadScores.topTraits s → other ∈ omitted → (other.2 ≤ kept.2)%nat.
Proof.
  intros [_ ->]%computeSummary_Returned; simpl. split.
  - by rewrite length_take, sort_length.
  - exists (drop 10 (JS.sort LoadScores.by_count_desc (trait_table scores))).
    rewrite take_drop. split; [by rewrite sort_perm|].
    intros kept other Hkept Hother.
    apply (StronglySorted_app_1_elem_of count_desc
             (take 10 (JS.sort LoadScores.by_count_desc (trait_table scores)))
             (drop 10 (JS.sort LoadScores.by_count_desc (trait_table scores))));
      [|done..].
    rewrite take_drop. apply by_count_desc_sorted.
Qed.

Lemma topTraits_are_largest_witness :
  ∃ s, LoadScores.computeSummary (H := utc_host) eleven_traits = JS.Returned s
       ∧ length (LoadScores.topTraits s) = Nat.min 10 (LoadScores.uniqueTraits s).
Proof.
  eexists. split; [reflexivity|].
  apply (@topTraits_are_largest utc_host eleven_traits). reflexivity.
Defined.



(** X10: the [quantile] of [loadPgs.js], which works out the position before
    it tests for the empty array, gives on every array and every [q] the
    result of the [quantile] of [loadScores.mjs]. *)
Theorem quantile_copies_agree sorted q :
  LoadPgs.quantile sorted q = LoadScores.quantile sorted q.
Proof.
  destruct sorted as [|x sorted]; [done|].
  unfold LoadPgs.quantile, LoadScores.quantile, JS.float_of_nat.
  cbn [length Nat.eqb]. by replace (Z.of_nat (S (length sorted)) - 1)
                          with (Z.of_nat (S (length sorted) - 1)) by lia.
Qed.

(** X12: the trait aggregator counts every trait at least once.  The counts
    of its table add up to the number of categories listed, a trait that lists
    none standing for one; this is at least the number of traits, and at least
    the number of entries of the table, and it is the number of traits when no
    trait lists more than one category. *)
Theorem traits_counted_at_least_once traits :
  let s := LoadTraits.computeSummary traits in
  let total := sum_list ((LoadTraits.categories s).*2) in
  total = length (traits ≫= LoadTraits.categories_of)
  ∧ (LoadTraits.totaltraits s ≤ total)%nat
  ∧ (LoadTraits.totalCategories s ≤ total)%nat
  ∧ (Forall (λ trait, length (LoadTraits.categories_of trait) = 1%nat) traits →
     total = LoadTraits.totaltraits s).
Proof.
  intros s total. subst s total. simpl.
  destruct (count_traits_complete traits) as [_ _ Honly Htotal].
  assert (sum_list ((JS.sort LoadTraits.by_count_desc (LoadTraits.count_traits traits)).*2)
          = length (traits ≫= LoadTraits.categories_of)) as ->.
  { rewrite sort_perm, Htotal. unfold category_keys. by rewrite length_fmap. }
  split; [done|]. split; [|split].
  - clear Honly Htotal. induction traits as [|trait traits IH]; csimpl; [done|].
    rewrite length_app. unfold LoadTraits.categories_of at 1.
    destruct (JS.get_opt trait "trait_categories") as [| | | | |[|c cs]|]; simpl; lia.
  - unfold category_keys in Htotal. rewrite length_fmap in Htotal. rewrite <- Htotal.
    clear Htotal. induction (LoadTraits.count_traits traits) as [|[k n] m IH]; [done|].
    csimpl. assert (1 ≤ n)%nat by (apply (Honly (k, n)); left).
    assert (length m ≤ sum_list m.*2)%nat; [|lia].
    apply IH. intros e He. apply Honly. by right.
  - clear Honly Htotal. induction 1 as [|trait traits Hone _ IH]; csimpl; [done|].
    rewrite length_app, Hone. lia.
Qed.

Lemma traits_counted_at_least_once_witness :
  sum_list
    ((LoadTraits.categories
        (LoadTraits.computeSummary
           [JS.VObj [("trait_categories", JS.VArr [JS.VStr "Cancer"])]; JS.VObj []])).*2)
  = 2%nat.
Proof.
  apply (proj2 (proj2 (proj2 (traits_counted_at_least_once
           [JS.VObj [("trait_categories", JS.VArr [JS.VStr "Cancer"])]; JS.VObj []])))).
  repeat constructor.
Defined.

Section Years.
Import JS LoadScores.

Lemma is_digit_value c :
  is_digit c = true →
  ∃ d, Dates.digit_value c = Some d ∧ 0 ≤ d ≤ 9 ∧ d = Z.of_nat (nat_of_ascii c) - 48.
Proof.
  unfold is_digit, Dates.digit_value.
  intros [H1%Nat.leb_le H2%Nat.leb_le]%andb_true_iff.
  exists (Z.of_nat (nat_of_ascii c) - 48).
  destruct (Z.leb_spec 48 (Z.of_nat (nat_of_ascii c))); [|lia].
  destruct (Z.leb_spec (Z.of_nat (nat_of_ascii c)) 57); [|lia].
  simpl. repeat split; lia.
Qed.

Lemma digit_char_eq a b :
  Z.of_nat (nat_of_ascii a) - 48 = Z.of_nat (nat_of_ascii b) - 48 → a = b.
Proof.
  intros Heq. rewrite <- (ascii_nat_embedding a), <- (ascii_nat_embedding b).
  f_equal. lia.
Qed.

(** A year as the pattern captures it, and the number it writes. *)
Lemma leading_year_digits s y :
  leading_year s = Some y →
  ∃ a b c d da db dc dd,
    y = String a (String b (String c (String d EmptyString)))
    ∧ da = Z.of_nat (nat_of_ascii a) - 48 ∧ db = Z.of_nat (nat_of_ascii b) - 48
    ∧ dc = Z.of_nat (nat_of_ascii c) - 48 ∧ dd = Z.of_nat (nat_of_ascii d) - 48
    ∧ 0 ≤ da ≤ 9 ∧ 0 ≤ db ≤ 9 ∧ 0 ≤ dc ≤ 9 ∧ 0 ≤ dd ≤ 9
    ∧ year_number y = 1000 * da + 100 * db + 10 * dc + dd.
Proof.
  unfold leading_year.
  destruct s as [|a [|b [|c [|d s]]]]; try done.
  destruct (is_digit a) eqn:Ha; [|done]. destruct (is_digit b) eqn:Hb; [|done].
  destruct (is_digit c) eqn:Hc; [|done]. destruct (is_digit d) eqn:Hd; [|done].
  intros [= <-].
  destruct (is_digit_value _ Ha) as (da & Ea & ? & ?).
  destruct (is_digit_value _ Hb) as (db & Eb & ? & ?).
  destruct (is_digit_value _ Hc) as (dc & Ec & ? & ?).
  destruct (is_digit_value _ Hd) as (dd & Ed & ? & ?).
  exists a, b, c, d, da, db, dc, dd. repeat (split; [done|]).
  unfold year_number, Dates.digits. cbn [Dates.digits_from].
  rewrite Ea. csimpl. rewrite Eb. csimpl. rewrite Ec. csimpl. rewrite Ed. csimpl. lia.
Qed.

Lemma year_number_inj s y s' y' :
  leading_year s = Some y → leading_year s' = Some y' →
  year_number y = year_number y' → y = y'.
Proof.
  intros (a & b & c & d & da & db & dc & dd & -> & ? & ? & ? & ? & ? & ? & ? & ? & ->)
           %leading_year_digits
         (a' & b' & c' & d' & da' & db' & dc' & dd' & -> & ? & ? & ? & ? & ? & ? & ? & ? & ->)
           %leading_year_digits Heq.
  assert (da = da' ∧ db = db' ∧ dc = dc' ∧ dd = dd') as (? & ? & ? & ?) by lia.
  f_equal; [apply digit_char_eq; lia|].
  f_equal; [apply digit_char_eq; lia|].
  f_equal; [apply digit_char_eq; lia|].
  f_equal. apply digit_char_eq; lia.
Qed.

Lemma distinct_keys_NoDup (m : list (string * nat)) :
  distinct_keys String.eqb m → NoDup (m.*1).
Proof.
  unfold distinct_keys. induction 1 as [|k keys Hk _ IH]; constructor; [|done].
  intros Hin. rewrite Forall_forall in Hk. specialize (Hk k Hin).
  by rewrite String.eqb_refl in Hk.
Qed.

Lemma release_year_leading score y :
  release_year score = Some y → ∃ s, leading_year s = Some y.
Proof.
  unfold release_year.
  destruct (coalesce (get_opt score "date_release") (VStr "")); try done. eauto.
Qed.

Lemma strictly_sorted (l : list (string * nat)) :
  StronglySorted year_asc l →
  NoDup (l.*1) →
  Forall (λ e, ∃ s, leading_year s = Some e.1) l →
  StronglySorted (λ a b, year_number a.1 < year_number b.1) l.
Proof.
  induction 1 as [|a l _ IH Ha]; intros Hnd Hkeys; [constructor|].
  csimpl in Hnd. apply NoDup_cons in Hnd as [Hnotin Hnd].
  apply Forall_cons in Hkeys as [[s Hs] Hkeys].
  constructor; [by apply IH|].
  rewrite Forall_forall in Ha, Hkeys |- *. intros b Hb.
  specialize (Ha b Hb). unfold year_asc in Ha.
  destruct (Hkeys b Hb) as [s' Hs'].
  destruct (Z.eq_dec (year_number a.1) (year_number b.1)) as [Heq|]; [|lia].
  destruct Hnotin. rewrite (year_number_inj _ _ _ _ Hs Hs' Heq).
  by apply list_elem_of_fmap_2.
Qed.

End Years.

(** X11: the release-year table of a score summary lists each year once, in
    strictly increasing order; every entry is for the year that stands at the
    head of the [date_release] of some score, and counts at least one. *)
Theorem releaseYears_chronological `{Host} scores s :
  LoadScores.computeSummary scores = JS.Returned s →
  StronglySorted (λ a b, LoadScores.year_number a.1 < LoadScores.year_number b.1)
    (LoadScores.releaseYears s)
  ∧ Forall (λ entry, (∃ score, score ∈ scores ∧ release_year score = Some entry.1)
                     ∧ (1 ≤ entry.2)%nat)
      (LoadScores.releaseYears s).
Proof.
  intros [_ ->]%computeSummary_Returned; simpl.
  destruct (year_table_complete scores) as [Hdistinct _ Honly _].
  assert (Forall (λ entry, (∃ score, score ∈ scores ∧ release_year score = Some entry.1)
                           ∧ (1 ≤ entry.2)%nat)
            (JS.sort LoadScores.by_year_asc (year_table scores))) as Hentries.
  { rewrite sort_perm. apply Forall_forall. intros e [Hkey Hcount]%Honly.
    split; [|done]. apply list_elem_of_omap in Hkey as (score & ? & ?). eauto. }
  split; [|done].
  apply strictly_sorted.
  - apply by_year_asc_sorted.
  - rewrite sort_perm. by apply distinct_keys_NoDup.
  - eapply Forall_impl; [exact Hentries|].
    intros e [(score & _ & Hyear) _]. by eapply release_year_leading.
Qed.

Lemma releaseYears_chronological_witness :
  StronglySorted (λ a b, LoadScores.year_number a.1 < LoadScores.year_number b.1)
    [("2020", 1%nat); ("2021", 2%nat)].
Proof.
  apply (@releaseYears_chronological utc_host three_releases
           {| LoadScores.totalScores := 3; LoadScores.uniqueTraits := 1;
              LoadScores.variants := LoadScores.distribution [];
              LoadScores.topTraits := [(JS.VStr "NR", 3%nat)];
              LoadScores.releaseYears := [("2020", 1%nat); ("2021", 2%nat)] |}).
  reflexivity.
Defined.

(** * Further properties of the cache and the orchestrator *)

(** X13: what [saveScoreSummary] has saved, [getStoredScoreSummary] reads
    back: the summary and the records given, stamped with the time of the
    save, in place of any earlier entry, and no other key of the store is
    touched.  A save that the store rejects throws and leaves the store as it
    was. *)
Theorem save_then_get lf now results :
  (LoadScores.setItem_rejects lf = false →
   (LoadScores.saveScoreSummary lf now results).1 = JS.Returned ()
   ∧ (LoadScores.getItem_rejects lf = false →
      LoadScores.getStoredScoreSummary (LoadScores.saveScoreSummary lf now results).2 =
      JS.Returned
        (Some {| LoadScores.Cache.savedAt := Some (Dates.toISOString now);
                 LoadScores.Cache.summary := LoadScores.summary results;
                 LoadScores.Cache.scores := Some (LoadScores.scores results) |}))
   ∧ (∀ key, key ≠ LoadScores.SCORE_SUMMARY_KEY →
             LoadScores.items (LoadScores.saveScoreSummary lf now results).2 !! key
             = LoadScores.items lf !! key))
  ∧ (LoadScores.setItem_rejects lf = true →
     (LoadScores.saveScoreSummary lf now results).1 = JS.Threw JS.StorageError
     ∧ (LoadScores.saveScoreSummary lf now results).2 = lf).
Proof.
  unfold LoadScores.saveScoreSummary, LoadScores.getStoredScoreSummary,
    LoadScores.setItem, LoadScores.getItem.
  split; intros ->; simpl; [|done].
  split; [done|]. split.
  - intros ->. by rewrite lookup_insert_eq.
  - intros key Hkey. by rewrite lookup_insert_ne.
Qed.

Lemma save_then_get_witness :
  LoadScores.getStoredScoreSummary
    (LoadScores.saveScoreSummary (store_with old_entry) end_of_march
       {| LoadScores.scores := four_variants; LoadScores.summary := Some sample_summary |}).2
  = JS.Returned
      (Some {| LoadScores.Cache.savedAt := Some "2024-03-31T10:00:00.000Z";
               LoadScores.Cache.summary := Some sample_summary;
               LoadScores.Cache.scores := Some four_variants |}).
Proof.
  apply (proj1 (save_then_get (store_with old_entry) end_of_march
                  {| LoadScores.scores := four_variants;
                     LoadScores.summary := Some sample_summary |}));
    reflexivity.
Defined.

Section Runs.
Context `{Host}.
Import JS LoadScores.

Lemma loadScores_requests lf network now elapsed :
  getItem_rejects lf = false →
  usable now (items lf !! SCORE_SUMMARY_KEY) = false →
  requests (loadScores lf network now elapsed) = (fetchAllScores 200 network).1.
Proof.
  intros Hread Hstale. unfold loadScores, getStoredScoreSummary, getItem.
  rewrite Hread, Hstale.
  destruct (fetchAllScores 200 network) as [urls [fetched| |]]; [|done..].
  destruct (computeSummary fetched); [|done..].
  by destruct (saveScoreSummary lf (now + elapsed) _) as [[| |] lf'].
Qed.

(** X14: [loadScores] sends no request exactly when reading the cache fails
    or the cache holds a fresh entry with a summary.  On such a cache hit it
    returns the summary and the records of the entry and leaves the store as
    it is. *)
Theorem no_request_iff_cache_hit lf network now elapsed :
  (requests (loadScores lf network now elapsed) = [] ↔
   getItem_rejects lf = true ∨ usable now (items lf !! SCORE_SUMMARY_KEY) = true)
  ∧ (getItem_rejects lf = false →
     usable now (items lf !! SCORE_SUMMARY_KEY) = true →
     ∃ entry s,
       items lf !! SCORE_SUMMARY_KEY = Some entry
       ∧ Cache.summary entry = Some s
       ∧ loadScores lf network now elapsed =
         {| result := Returned {| summary := Some s;
                                  scores := default [] (Cache.scores entry) |};
            store := lf; requests := [] |}).
Proof.
  split.
  - destruct (getItem_rejects lf) eqn:Hread.
    { unfold loadScores, getStoredScoreSummary, getItem. rewrite Hread.
      by split; [left|]. }
    destruct (usable now (items lf !! SCORE_SUMMARY_KEY)) eqn:Hfresh.
    { unfold loadScores, getStoredScoreSummary, getItem. rewrite Hread, Hfresh.
      by split; [right|]. }
    rewrite loadScores_requests by done.
    split; [|by intros [|]].
    intros Hnone. pose proof (fetch_loop_sends 200 network 0 []) as Hsends.
    unfold fetchAllScores in Hnone. rewrite Hnone in Hsends. simpl in Hsends. lia.
  - intros Hread Hfresh.
    unfold loadScores, getStoredScoreSummary, getItem. rewrite Hread, Hfresh.
    unfold usable in Hfresh.
    destruct (items lf !! SCORE_SUMMARY_KEY) as [entry|]; [|done]. simpl in *.
    destruct (Cache.summary entry) as [s|] eqn:Hs; [|done].
    by exists entry, s.
Qed.

(** X15: when the cache has no fresh entry and the fetch, the aggregation and
    the save all go through, [loadScores] returns the fetched records with
    their summary, and the store holds exactly these under the key, stamped
    with the time of the save, in place of whatever entry was there. *)
Theorem fresh_fetch_is_saved lf network now elapsed urls fetched s :
  getItem_rejects lf = false →
  usable now (items lf !! SCORE_SUMMARY_KEY) = false →
  fetchAllScores 200 network = (urls, Returned fetched) →
  computeSummary fetched = Returned s →
  setItem_rejects lf = false →
  loadScores lf network now elapsed =
  {| result := Returned {| scores := fetched; summary := Some s |};
     store :=
       {| items :=
            <[SCORE_SUMMARY_KEY :=
                {| Cache.savedAt := Some (Dates.toISOString (now + elapsed));
                   Cache.summary := Some s;
                   Cache.scores := Some fetched |}]> (items lf);
          getItem_rejects := false;
          setItem_rejects := false |};
     requests := urls |}.
Proof.
  intros Hread Hstale Hfetch Hsum Hwrite.
  unfold loadScores, getStoredScoreSummary, getItem, saveScoreSummary, setItem.
  by rewrite Hread, Hstale, Hfetch, Hsum, Hwrite.
Qed.

(** X16: when the fetch and the aggregation go through and the store rejects
    the save, [loadScores] throws nothing and the store is unchanged; but if
    the cache holds an entry with a summary, however old, the caller is given
    that entry's summary and records and not the records just fetched.  Only
    when there is no such entry does it get the fetched records and their
    summary. *)
Theorem rejected_save_falls_back lf network now elapsed urls fetched s :
  getItem_rejects lf = false →
  usable now (items lf !! SCORE_SUMMARY_KEY) = false →
  fetchAllScores 200 network = (urls, Returned fetched) →
  computeSummary fetched = Returned s →
  setItem_rejects lf = true →
  loadScores lf network now elapsed =
  {| result :=
       Returned
         match (items lf !! SCORE_SUMMARY_KEY) ≫= Cache.summary with
         | Some old =>
             {| summary := Some old;
                scores := default [] ((items lf !! SCORE_SUMMARY_KEY) ≫= Cache.scores) |}
         | None => {| scores := fetched; summary := Some s |}
         end;
     store := lf;
     requests := urls |}.
Proof.
  intros Hread Hstale Hfetch Hsum Hwrite.
  unfold loadScores, getStoredScoreSummary, getItem, saveScoreSummary, setItem, on_error.
  rewrite Hread, Hstale, Hfetch, Hsum, Hwrite.
  by destruct ((items lf !! SCORE_SUMMARY_KEY) ≫= Cache.summary).
Qed.

End Runs.

Section Window.
Import Dates.

Lemma DaysInYear_cases y :
  (DaysInYear y = 365 ∨ DaysInYear y = 366).
Proof. unfold DaysInYear. repeat case_match; auto. Qed.

(** Three calendar months are between 89 and 92 days. *)
Lemma MakeDay_three_months y m date :
  0 ≤ m < 12 →
  89 ≤ MakeDay y m date - MakeDay y (m - 3) date ≤ 92.
Proof.
  intros Hm. rewrite (MakeDay_in_year y m) by done.
  destruct (Z.lt_ge_cases m 3).
  - unfold MakeDay.
    replace ((m - 3) / 12) with (-1) by (Z.div_mod_to_equations; lia).
    replace ((m - 3) mod 12) with (m + 9) by (Z.div_mod_to_equations; lia).
    pose proof (DaysInYear_spec (y - 1)) as Hyear.
    replace (y - 1 + 1) with y in Hyear by lia.
    replace (y + -1) with (y - 1) by lia.
    destruct (DaysInYear_cases (y - 1)) as [E1|E1], (DaysInYear_cases y) as [E2|E2];
      rewrite E1 in *; rewrite E2; simpl;
      assert (m = 0 ∨ m = 1 ∨ m = 2) as [->|[->| ->]] by lia; simpl; lia.
  - rewrite (MakeDay_in_year y (m - 3)) by lia.
    destruct (DaysInYear_cases y) as [E|E]; rewrite E; simpl;
      assert (m = 3 ∨ m = 4 ∨ m = 5 ∨ m = 6 ∨ m = 7 ∨ m = 8 ∨ m = 9 ∨ m = 10 ∨ m = 11)
        as [->|[->|[->|[->|[->|[->|[->|[->| ->]]]]]]]] by lia; simpl; lia.
Qed.

Context `{Host}.

(** The cutoff of three months lies between 87 and 94 days before now, when
    local time is within a day of universal time. *)
Lemma cutoff_window now :
  (∀ t b, Z.abs (LocalTZA t b) ≤ msPerDay) →
  0 ≤ now ≤ 8640000000000000 →
  ∃ cutoff,
    setMonth now (getMonth now - 3) = Some cutoff
    ∧ now - 94 * msPerDay ≤ cutoff ≤ now - 87 * msPerDay.
Proof.
  intros Hzone Hnow. unfold setMonth, getMonth, MakeDate, UTC.
  set (t := LocalTime now).
  pose proof (MakeDay_three_months (YearFromTime t) (MonthFromTime t) (DateFromTime t)
                (MonthFromTime_range t)) as Hspan.
  rewrite MakeDay_fields in Hspan.
  set (day := MakeDay (YearFromTime t) (MonthFromTime t - 3) (DateFromTime t)) in *.
  set (newDate := day * msPerDay + TimeWithinDay t).
  pose proof (Hzone newDate false) as Hz1. pose proof (Hzone now true) as Hz2.
  assert (t = Day t * msPerDay + TimeWithinDay t) as Ht.
  { unfold Day, TimeWithinDay, msPerDay. Z.div_mod_to_equations. lia. }
  assert (t = now + LocalTZA now true) as Ht' by done.
  assert (now - 94 * msPerDay ≤ newDate - LocalTZA newDate false ≤ now - 87 * msPerDay)
    as Hbounds.
  { subst newDate. unfold msPerDay in *. lia. }
  exists (newDate - LocalTZA newDate false). split; [|done].
  unfold TimeClip. unfold msPerDay in Hbounds.
  destruct (Z.ltb_spec 8640000000000000 (Z.abs (newDate - LocalTZA newDate false)));
    [lia | done].
Qed.

End Window.

(** X17: with the three months that [loadScores] allows, and a local time
    within a day of universal time, an entry saved up to 87 days ago is fresh
    and an entry saved more than 94 days ago is not, whatever the date and the
    time zone. *)
Theorem freshness_window `{Host} now s saved :
  (∀ t b, Z.abs (LocalTZA t b) ≤ Dates.msPerDay) →
  0 ≤ now ≤ 8640000000000000 →
  s ≠ "" →
  Date_parse s = Some saved →
  (now - 87 * Dates.msPerDay ≤ saved →
   LoadScores.isCacheWithinMonths now (Some s) 3 = true)
  ∧ (saved < now - 94 * Dates.msPerDay →
     LoadScores.isCacheWithinMonths now (Some s) 3 = false).
Proof.
  intros Hzone Hnow Hs Hsaved.
  destruct (cutoff_window now Hzone Hnow) as (cutoff & Hcutoff & Hbounds).
  unfold LoadScores.isCacheWithinMonths. rewrite Hsaved, Hcutoff.
  destruct (String.eqb_spec s ""); [done|].
  split; intros ?; [apply Z.leb_le | apply Z.leb_gt]; lia.
Qed.

Lemma freshness_window_witness :
  LoadScores.isCacheWithinMonths (H := utc_host) end_of_march
    (Some "2024-03-21T10:00:00.000Z") 3 = true.
Proof.
  apply (@freshness_window utc_host end_of_march "2024-03-21T10:00:00.000Z" 1711015200000).
  - intros t b. simpl. unfold Dates.msPerDay. lia.
  - unfold end_of_march. lia.
  - discriminate.
  - reflexivity.
  - unfold end_of_march, Dates.msPerDay. lia.
Defined.

Lemma toISOString_nonempty t : Dates.toISOString t ≠ "".
Proof.
  unfold Dates.toISOString.
  destruct (if (0 <=? Dates.YearFromTime t) && (Dates.YearFromTime t <=? 9999)
            then Dates.pad 4 (Dates.YearFromTime t)
            else if Dates.YearFromTime t <? 0
                 then "-" +:+ Dates.pad 6 (- Dates.YearFromTime t)
                 else "+" +:+ Dates.pad 6 (Dates.YearFromTime t)); simpl; discriminate.
Qed.

(** X18: a load that fetched and saved is followed by cache hits.  When the
    engine reads back the time stamps it writes and local time is within a day
    of universal time, any load that starts within 87 days of the save returns
    the result of the first load, sends no request and leaves the store as the
    first load left it. *)
Theorem reload_hits_cache `{Host} lf network network' now elapsed now' elapsed'
    urls fetched s :
  (∀ t b, Z.abs (LocalTZA t b) ≤ Dates.msPerDay) →
  Date_parse (Dates.toISOString (now + elapsed)) = Some (now + elapsed) →
  LoadScores.getItem_rejects lf = false →
  LoadScores.setItem_rejects lf = false →
  LoadScores.usable now (LoadScores.items lf !! LoadScores.SCORE_SUMMARY_KEY) = false →
  LoadScores.fetchAllScores 200 network = (urls, JS.Returned fetched) →
  LoadScores.computeSummary fetched = JS.Returned s →
  0 ≤ now' ≤ 8640000000000000 →
  now' - 87 * Dates.msPerDay ≤ now + elapsed →
  let first := LoadScores.loadScores lf network now elapsed in
  LoadScores.result first
  = JS.Returned {| LoadScores.scores := fetched; LoadScores.summary := Some s |}
  ∧ LoadScores.loadScores (LoadScores.store first) network' now' elapsed' =
    {| LoadScores.result := LoadScores.result first;
       LoadScores.store := LoadScores.store first;
       LoadScores.requests := [] |}.
Proof.
  intros Hzone Hparse Hread Hwrite Hstale Hfetch Hsum Hnow' Hrecent first.
  assert (first =
          {| LoadScores.result :=
               JS.Returned {| LoadScores.scores := fetched; LoadScores.summary := Some s |};
             LoadScores.store :=
               {| LoadScores.items :=
                    <[LoadScores.SCORE_SUMMARY_KEY :=
                        {| LoadScores.Cache.savedAt :=
                             Some (Dates.toISOString (now + elapsed));
                           LoadScores.Cache.summary := Some s;
                           LoadScores.Cache.scores := Some fetched |}]>
                      (LoadScores.items lf);
                  LoadScores.getItem_rejects := false;
                  LoadScores.setItem_rejects := false |};
             LoadScores.requests := urls |}) as ->.
  { subst first.
    unfold LoadScores.loadScores, LoadScores.getStoredScoreSummary, LoadScores.getItem,
      LoadScores.saveScoreSummary, LoadScores.setItem.
    by rewrite Hread, Hstale, Hfetch, Hsum, Hwrite. }
  split; [done|]. simpl.
  unfold LoadScores.loadScores, LoadScores.getStoredScoreSummary, LoadScores.getItem,
    LoadScores.usable. simpl.
  rewrite lookup_insert_eq. simpl.
  unfold LoadScores.isCacheWithinMonths.
  destruct (String.eqb_spec (Dates.toISOString (now + elapsed)) "") as [Hempty|_];
    [by destruct (toISOString_nonempty _ Hempty)|].
  rewrite Hparse.
  destruct (cutoff_window now' Hzone Hnow') as (cutoff & -> & Hbounds).
  destruct (Z.leb_spec cutoff (now + elapsed)); [done | lia].
Qed.

Lemma reload_hits_cache_witness :
  let first :=
    LoadScores.loadScores (H := utc_host) (store_with old_entry)
      [envelope four_variants JS.VNull] end_of_march 1500 in
  LoadScores.loadScores (H := utc_host) (LoadScores.store first) failing_network
    (end_of_march + 10 * Dates.msPerDay) 0
  = {| LoadScores.result := LoadScores.result first;
       LoadScores.store := LoadScores.store first;
       LoadScores.requests := [] |}.
Proof.
  eapply (@reload_hits_cache utc_host (store_with old_entry)
            [envelope four_variants JS.VNull] failing_network end_of_march 1500
            (end_of_march + 10 * Dates.msPerDay) 0).
  - intros t b. simpl. unfold Dates.msPerDay. lia.
  - reflexivity.
  - reflexivity.
  - reflexivity.
  - reflexivity.
  - reflexivity.
  - reflexivity.
  - unfold end_of_march, Dates.msPerDay. lia.
  - unfold end_of_march, Dates.msPerDay. lia.
Defined.

Lemma no_request_iff_cache_hit_witness :
  LoadScores.requests
    (LoadScores.loadScores (H := utc_host) (store_with summary_only_entry) failing_network
       end_of_march 0) = [].
Proof.
  apply (proj1 (@no_request_iff_cache_hit utc_host (store_with summary_only_entry)
                  failing_network end_of_march 0)).
  right. reflexivity.
Defined.

Lemma fresh_fetch_is_saved_witness :
  (LoadScores.items
     (LoadScores.store
        (LoadScores.loadScores (H := utc_host) (store_with old_entry)
           [envelope four_variants JS.VNull] end_of_march 1500))
   !! LoadScores.SCORE_SUMMARY_KEY) ≫= LoadScores.Cache.scores
  = Some four_variants.
Proof.
  erewrite (@fresh_fetch_is_saved utc_host (store_with old_entry)
              [envelope four_variants JS.VNull] end_of_march 1500);
    reflexivity.
Defined.

Lemma rejected_save_falls_back_witness :
  LoadScores.result
    (LoadScores.loadScores (H := utc_host)
       {| LoadScores.items := {[ LoadScores.SCORE_SUMMARY_KEY := old_entry ]};
          LoadScores.getItem_rejects := false;
          LoadScores.setItem_rejects := true |}
       [envelope four_variants JS.VNull] end_of_march 1500)
  = JS.Returned
      {| LoadScores.summary := Some sample_summary;
         LoadScores.scores :=
           [JS.VObj [("variants_number", JS.VNum 10%float)];
            JS.VObj [("variants_number", JS.VNum 30%float)]] |}.
Proof.
  erewrite (@rejected_save_falls_back utc_host
              {| LoadScores.items := {[ LoadScores.SCORE_SUMMARY_KEY := old_entry ]};
                 LoadScores.getItem_rejects := false;
                 LoadScores.setItem_rejects := true |}
              [envelope four_variants JS.VNull] end_of_march 1500);
    reflexivity.
Defined.

(** * The page script [loadStats] *)

Section Stats.
Context `{Host} {V : Type}.
Context (renderStats renderPlot : LoadScores.Summary → V → JS.outcome unit * V).
Context (toLocaleString : float → nat → string).
Context (message : JS.exn → string).
Import JS LoadScores.


Lemma render_Returned s page :
  (∀ s v, (renderStats s v).1 = Returned ()) →
  (∀ s v, (renderPlot s v).1 = Returned ()) →
  render renderStats renderPlot s page =
  (Returned (),
   {| scoreSourceStatus := scoreSourceStatus page;
      scoreOutput := scoreOutput page;
      view := (renderPlot s (renderStats s (view page)).2).2 |}).
Proof.
  intros Hstats Hplot. unfold render.
  specialize (Hstats s (view page)).
  destruct (renderStats s (view page)) as [out v]. simpl in *. subst out.
  specialize (Hplot s v). destruct (renderPlot s v) as [out v']. simpl in *. by subst out.
Qed.


(** X20: data that comes from an old entry of the cache is shown as live.
    When the cache holds an entry with a summary that is no longer fresh and
    the fetch throws, [loadStats] renders the summary of that entry, returns it
    with the entry's records, and sets the status to the text for the live
    catalog and the output to the text for scores loaded from the catalog. *)
Theorem stale_fallback_shown_as_live lf network now elapsed later entry old e
    status text drawn :
  (∀ s v, (renderStats s v).1 = Returned ()) →
  (∀ s v, (renderPlot s v).1 = Returned ()) →
  getItem_rejects lf = false →
  items lf !! SCORE_SUMMARY_KEY = Some entry →
  Cache.summary entry = Some old →
  isCacheWithinMonths now (Cache.savedAt entry) 3 = false →
  isCacheWithinMonths later (Cache.savedAt entry) 3 = false →
  (fetchAllScores 200 network).2 = Threw e →
  loadStats renderStats renderPlot toLocaleString message lf network now elapsed later
    {| scoreSourceStatus := Some status; scoreOutput := Some text; view := drawn |} =
  {| returned := Returned {| summary := Some old;
                             scores := default [] (Cache.scores entry) |};
     page_after :=
       {| scoreSourceStatus := Some "Source: PGS Catalog REST API (live)";
          scoreOutput :=
            Some ("Loaded "
                  +:+ formatNumber toLocaleString
                        (VNum (float_of_nat (totalScores old))) 0
                  +:+ " scores from PGS Catalog.");
          view := (renderPlot old (renderStats old drawn).2).2 |};
     store_after := lf;
     requests_sent := (fetchAllScores 200 network).1 |}.
Proof.
  intros Hstats Hplot Hread Hentry Hold Hstale Hstale' Hfetch.
  unfold loadStats, loadScores, getStoredScoreSummary, getItem, usable.
  rewrite Hread, Hentry. simpl. rewrite Hold, Hstale, Hstale'.
  destruct (fetchAllScores 200 network) as [urls out]. simpl in Hfetch. subst out.
  unfold on_error. simpl. rewrite Hold. simpl.
  by rewrite (render_Returned _ _ Hstats Hplot).
Qed.


End Stats.


Lemma stale_fallback_shown_as_live_witness :
  LoadScores.page_after
    (LoadScores.loadStats (H := utc_host) (draw "stats") (draw "plot") plain_number
       error_text (store_with old_entry) failing_network end_of_march 1500
       end_of_march blank_page)
  = {| LoadScores.scoreSourceStatus := Some "Source: PGS Catalog REST API (live)";
       LoadScores.scoreOutput := Some "Loaded 2 scores from PGS Catalog.";
       LoadScores.view := ["stats"; "plot"] |}.
Proof.
  unfold blank_page.
  rewrite (stale_fallback_shown_as_live (H := utc_host) (draw "stats") (draw "plot")
             plain_number error_text (store_with old_entry) failing_network
             end_of_march 1500 end_of_march old_entry sample_summary
             (JS.HttpError 500 200 1) "Source:" "Output:" []);
    intros; reflexivity.
Defined.

